(** * stsh: a job-control shell

    A shallow embedding of [stsh.cc], in the version that has the builtins
    and the signal handlers: [fg], [bg], [slay], [halt], [cont], the
    SIGCHLD, SIGINT and SIGTSTP handlers, the pipeline launcher
    [createJob] (parent and child side) and the [catch] clause of [main].

    The shell is one process.  Its memory (the global [joblist]) and the
    kernel state that concerns it (signal mask, pending signals, children,
    state changes not yet collected, the terminal's foreground group) are
    threaded explicitly through a state monad with early exit; every
    system call and every job-table mutation is recorded in a log.  The
    environment is a schedule: what happens (a child changes state, a
    signal arrives) by the time each system call returns.  Signals that
    are pending and not blocked are handled when a system call returns
    and inside [sigsuspend]; a handler runs to completion, and an
    exception it ends in leaves through the call it interrupted.

    The job table ([STSHJobList], [STSHJob], [STSHProcess]) and the parser
    structures are not part of [stsh.cc]; they are modelled from the
    specification. *)

From Stdlib Require Import ZArith String Ascii List Bool Lia.
From stdpp Require Import base gmap strings list pretty.
Import ListNotations.
Local Open Scope Z_scope.

(** ** C library: [strtol], [atoi], [std::to_string] *)

Module CLib.

Definition INT_WIDTH : Z := 32.
Definition LONG_MAX : Z := 2 ^ 63 - 1.
Definition LONG_MIN : Z := - 2 ^ 63.
Definition SIZE_MODULUS : Z := 2 ^ 64.

(** Conversion of a [long] to [int]: wrap-around on 32 bits. *)
Definition to_int (z : Z) : Z :=
  (z + 2 ^ (INT_WIDTH - 1)) mod 2 ^ INT_WIDTH - 2 ^ (INT_WIDTH - 1).

(** Conversion of a signed integer to [size_t]. *)
Definition to_size_t (z : Z) : Z := z mod SIZE_MODULUS.

Definition isspace (c : ascii) : bool :=
  let n := Z.of_nat (nat_of_ascii c) in
  (n =? 32) || ((9 <=? n) && (n <=? 13)).

Definition digit (c : ascii) : option Z :=
  let n := Z.of_nat (nat_of_ascii c) in
  if (48 <=? n) && (n <=? 57) then Some (n - 48) else None.

Fixpoint skip_space (s : string) : string :=
  match s with
  | String c r => if isspace c then skip_space r else s
  | EmptyString => s
  end.

(** Reads the longest prefix of decimal digits; [acc] is the value read
    so far.  Returns the value and the unread suffix. *)
Fixpoint digits (acc : Z) (s : string) : Z * string :=
  match s with
  | String c r =>
      match digit c with
      | Some d => digits (10 * acc + d) r
      | None => (acc, s)
      end
  | EmptyString => (acc, s)
  end.

Definition starts_with_digit (s : string) : bool :=
  match s with
  | String c _ => bool_decide (is_Some (digit c))
  | EmptyString => false
  end.

Definition clamp_long (z : Z) : Z := Z.max LONG_MIN (Z.min LONG_MAX z).

(** [strtol(s, &ptr, 10)]: the converted value and the string [ptr] is
    left pointing to.  When no digits are found the value is 0 and
    [ptr] is [s] itself. *)
Definition strtol (s : string) : Z * string :=
  let s1 := skip_space s in
  let '(neg, s2) :=
    match s1 with
    | String "-" r => (true, r)
    | String "+" r => (false, r)
    | _ => (false, s1)
    end in
  if starts_with_digit s2 then
    let '(v, rest) := digits 0 s2 in
    (clamp_long (if neg then - v else v), rest)
  else (0, s).

(** [atoi(s)] is [(int) strtol(s, NULL, 10)]. *)
Definition atoi (s : string) : Z := to_int (fst (strtol s)).

Definition strlen (s : string) : Z := Z.of_nat (String.length s).

(** [std::to_string(int)]. *)
Definition to_string (z : Z) : string := pretty z.

End CLib.

(** ** Data model *)

Inductive signal :=
| SIGINT | SIGQUIT | SIGKILL | SIGCHLD | SIGCONT | SIGSTOP | SIGTSTP
| SIGTTIN | SIGTTOU.

#[global] Instance signal_eq_dec : EqDecision signal.
Proof. solve_decision. Defined.

Inductive STSHProcessState := kRunning | kStopped | kTerminated.

#[global] Instance STSHProcessState_eq_dec : EqDecision STSHProcessState.
Proof. solve_decision. Defined.

Inductive STSHJobState := kForeground | kBackground.

#[global] Instance STSHJobState_eq_dec : EqDecision STSHJobState.
Proof. solve_decision. Defined.

(** Modelled from the spec: [struct command] of the parser
    (stsh-parser/stsh-parse.h), a command name and its NULL-terminated
    token array, here the list of tokens before the terminator. *)
Record command := mkCommand {
  cmd_command : string;
  cmd_tokens : list string;
}.

(** Modelled from the spec: [struct pipeline] of the parser; [commands] is
    non-empty for every parsed line, an empty path means no redirection. *)
Record pipeline := mkPipeline {
  commands : list command;
  input : string;
  output : string;
  background : bool;
}.

(** Modelled from the spec: [STSHProcess] (stsh-process.h). *)
Record STSHProcess := mkProcess {
  proc_pid : Z;
  proc_command : command;
  proc_state : STSHProcessState;
}.

(** Modelled from the spec: [STSHJob] (stsh-job.h).  [job_pgid] is 0 until
    the first process is added. *)
Record STSHJob := mkJob {
  job_num : Z;
  job_pgid : Z;
  job_state : STSHJobState;
  job_processes : list STSHProcess;
}.

(** [tokens[i]]: the i-th token, or NULL ([None]) at the terminator. *)
Definition token (p : pipeline) (i : nat) : option string :=
  match commands p with
  | c :: _ => cmd_tokens c !! i
  | [] => None
  end.

(** ** Wait statuses, as <bits/waitstatus.h> of glibc defines them *)

Module WaitStatus.

Definition WTERMSIG (status : Z) : Z := Z.land status 127.

Definition WIFEXITED (status : Z) : bool := WTERMSIG status =? 0.

(** [((signed char) ((status & 0x7f) + 1) >> 1) > 0]. *)
Definition WIFSIGNALED (status : Z) : bool :=
  let c := Z.land status 127 + 1 in
  let sc := if 128 <=? c then c - 256 else c in
  0 <? Z.shiftr sc 1.

Definition WIFSTOPPED (status : Z) : bool := Z.land status 255 =? 127.

Definition WIFCONTINUED (status : Z) : bool := status =? 65535.

(** Statuses the kernel reports. *)
Definition exited (code : Z) : Z := Z.shiftl (Z.land code 255) 8.
Definition signaled (sig : Z) : Z := Z.land sig 127.
Definition stopped (sig : Z) : Z := Z.lor (Z.shiftl (Z.land sig 255) 8) 127.
Definition continued : Z := 65535.

End WaitStatus.

(** ** The job table *)

Module JobList.

(** Modelled from the spec: [STSHJob::containsProcess]. *)
Definition job_containsProcess (j : STSHJob) (pid : Z) : bool :=
  existsb (fun p => proc_pid p =? pid) (job_processes j).

(** Modelled from the spec: [STSHJob::getProcess]. *)
Definition job_getProcess (j : STSHJob) (pid : Z) : option STSHProcess :=
  find (fun p => proc_pid p =? pid) (job_processes j).

(** Modelled from the spec: [STSHJob::addProcess]; the first insertion
    fixes the process-group id if it is not set yet. *)
Definition job_addProcess (j : STSHJob) (p : STSHProcess) : STSHJob :=
  {| job_num := job_num j;
     job_pgid := match job_processes j with
                 | [] => if job_pgid j =? 0 then proc_pid p else job_pgid j
                 | _ :: _ => job_pgid j
                 end;
     job_state := job_state j;
     job_processes := job_processes j ++ [p] |}.

(** Modelled from the spec: [STSHJob::setState]. *)
Definition job_setState (j : STSHJob) (s : STSHJobState) : STSHJob :=
  {| job_num := job_num j; job_pgid := job_pgid j;
     job_state := s; job_processes := job_processes j |}.

(** Modelled from the spec: [STSHProcess::setState]. *)
Definition proc_setState (p : STSHProcess) (s : STSHProcessState) : STSHProcess :=
  {| proc_pid := proc_pid p; proc_command := proc_command p; proc_state := s |}.

(** [job.getProcess(pid).setState(s)]: the first process of the job with
    that pid changes state. *)
Fixpoint set_process_state (pid : Z) (s : STSHProcessState) (ps : list STSHProcess)
  : list STSHProcess :=
  match ps with
  | [] => []
  | p :: r => if proc_pid p =? pid then proc_setState p s :: r
              else p :: set_process_state pid s r
  end.

Definition job_setProcessState (j : STSHJob) (pid : Z) (s : STSHProcessState) : STSHJob :=
  {| job_num := job_num j; job_pgid := job_pgid j; job_state := job_state j;
     job_processes := set_process_state pid s (job_processes j) |}.

Fixpoint first_free (fuel : nat) (n : Z) (t : gmap Z STSHJob) : Z :=
  match fuel with
  | O => n
  | S fuel' => if bool_decide (is_Some (t !! n)) then first_free fuel' (n + 1) t else n
  end.

(** Modelled from the spec: job numbers are allocated as the smallest
    positive integer not currently in use. *)
Definition fresh_num (t : gmap Z STSHJob) : Z := first_free (size t) 1 t.

(** Modelled from the spec: [STSHJobList::addJob]; returns the number of
    the new, empty job. *)
Definition addJob (s : STSHJobState) (t : gmap Z STSHJob) : Z * gmap Z STSHJob :=
  let n := fresh_num t in
  (n, <[n := {| job_num := n; job_pgid := 0; job_state := s; job_processes := [] |}]> t).

(** Modelled from the spec: [STSHJobList::containsJob]. *)
Definition containsJob (n : Z) (t : gmap Z STSHJob) : bool :=
  bool_decide (is_Some (t !! n)).

(** Modelled from the spec: [STSHJobList::getJobWithProcess], the reverse
    lookup; the job is returned with the number it is stored under. *)
Definition getJobWithProcess (pid : Z) (t : gmap Z STSHJob) : option (Z * STSHJob) :=
  find (fun nj => job_containsProcess (snd nj) pid) (map_to_list t).

(** Modelled from the spec: [STSHJobList::containsProcess]. *)
Definition containsProcess (pid : Z) (t : gmap Z STSHJob) : bool :=
  bool_decide (is_Some (getJobWithProcess pid t)).

(** Modelled from the spec: [STSHJobList::getForegroundJob]. *)
Definition getForegroundJob (t : gmap Z STSHJob) : option (Z * STSHJob) :=
  find (fun nj => bool_decide (job_state (snd nj) = kForeground)) (map_to_list t).

(** Modelled from the spec: [STSHJobList::hasForegroundJob]. *)
Definition hasForegroundJob (t : gmap Z STSHJob) : bool :=
  bool_decide (is_Some (getForegroundJob t)).

Definition all_terminated (j : STSHJob) : bool :=
  forallb (fun p => bool_decide (proc_state p = kTerminated)) (job_processes j).

Definition none_running (j : STSHJob) : bool :=
  forallb (fun p => negb (bool_decide (proc_state p = kRunning))) (job_processes j).

(** Modelled from the spec: [STSHJobList::synchronize].  A job whose
    processes are all Terminated is removed; a Foreground job whose
    remaining processes are all Stopped becomes Background, and the
    second component tells that the terminal is to be handed back to
    the shell. *)
Definition synchronize (n : Z) (t : gmap Z STSHJob) : gmap Z STSHJob * bool :=
  match t !! n with
  | None => (t, false)
  | Some j =>
      if all_terminated j then (delete n t, false)
      else if bool_decide (job_state j = kForeground) && none_running j
           then (<[n := job_setState j kBackground]> t, true)
           else (t, false)
  end.

End JobList.

(** ** The shell process and the kernel around it *)

Inductive tc_status := TcOk | TcENOTTY | TcEPERM.

#[global] Instance tc_status_eq_dec : EqDecision tc_status.
Proof. solve_decision. Defined.

(** What the environment does while the shell runs: a child changes state
    (and SIGCHLD is raised), or a signal is sent to the shell. *)
Inductive happening :=
| ChildChange (pid status : Z)
| Arrive (sig : signal).

(** File descriptors of [createJob], by the variable that holds them. *)
Inductive fdesc :=
| STDIN_FILENO | STDOUT_FILENO
| infd | outfd
| fds (i : Z) (e : Z).

#[global] Instance fdesc_eq_dec : EqDecision fdesc.
Proof. solve_decision. Defined.

Inductive how := SIG_BLOCK | SIG_UNBLOCK.

#[global] Instance how_eq_dec : EqDecision how.
Proof. solve_decision. Defined.

Inductive oflag := O_RDONLY | O_WRONLY_TRUNC | O_WRONLY_CREAT.

#[global] Instance oflag_eq_dec : EqDecision oflag.
Proof. solve_decision. Defined.

(** The log: system calls with their results, job-table mutations, output. *)
Inductive event :=
| EFork (ret : Z)
| EKill (pid : Z) (sig : signal) (ret : Z)
| ESetpgid (pid pgid : Z)
| ETcsetpgrp (pgid : Z) (ret : tc_status)
| ESigprocmask (h : how) (set : list signal)
| ESigsuspend (mask : list signal)
| EWaitpid (ret status : Z)
| EOpen (path : string) (flag : oflag) (ok : bool)
| EPipe (i : Z)
| EClose (fd : fdesc)
| EDup2 (from to : fdesc)
| EExecvp (file : string) (argv : list string) (ret : Z)
| EAddJob (num : Z)
| EAddProcess (num pid : Z)
| ESetJobState (num : Z) (s : STSHJobState)
| ESetProcessState (num pid : Z) (s : STSHProcessState)
| ESynchronize (num : Z)
| EStdout (s : string)
| EStdoutJobList
| EStderr (s : string)
| EHandlerEnter (sig : signal)
| EHandlerReturn (sig : signal).

#[global] Instance event_eq_dec : EqDecision event.
Proof. solve_decision. Defined.

(** What the shell cannot change. *)
Record Kernel := mkKernel {
  shell_pid : Z;
  shell_pgid : Z;
  tc_policy : Z -> tc_status;
  file_exists : string -> bool;
  program_exists : string -> bool;
}.

Record World := mkWorld {
  kernel : Kernel;
  (* memory of the shell *)
  joblist : gmap Z STSHJob;
  (* kernel state *)
  blocked : list signal;
  pending : list signal;
  children : list Z;
  waitq : list (Z * Z);
  tty_pgrp : Z;
  (* what is still to come *)
  fork_results : list Z;
  sched : list (list happening);
  (* what has been done *)
  log : list event;
}.

Definition set_joblist (f : gmap Z STSHJob -> gmap Z STSHJob) (w : World) : World :=
  mkWorld (kernel w) (f (joblist w)) (blocked w) (pending w) (children w) (waitq w)
          (tty_pgrp w) (fork_results w) (sched w) (log w).
Definition set_blocked (b : list signal) (w : World) : World :=
  mkWorld (kernel w) (joblist w) b (pending w) (children w) (waitq w)
          (tty_pgrp w) (fork_results w) (sched w) (log w).
Definition set_pending (p : list signal) (w : World) : World :=
  mkWorld (kernel w) (joblist w) (blocked w) p (children w) (waitq w)
          (tty_pgrp w) (fork_results w) (sched w) (log w).
Definition set_children (c : list Z) (w : World) : World :=
  mkWorld (kernel w) (joblist w) (blocked w) (pending w) c (waitq w)
          (tty_pgrp w) (fork_results w) (sched w) (log w).
Definition set_waitq (q : list (Z * Z)) (w : World) : World :=
  mkWorld (kernel w) (joblist w) (blocked w) (pending w) (children w) q
          (tty_pgrp w) (fork_results w) (sched w) (log w).
Definition set_tty_pgrp (g : Z) (w : World) : World :=
  mkWorld (kernel w) (joblist w) (blocked w) (pending w) (children w) (waitq w)
          g (fork_results w) (sched w) (log w).
Definition set_fork_results (l : list Z) (w : World) : World :=
  mkWorld (kernel w) (joblist w) (blocked w) (pending w) (children w) (waitq w)
          (tty_pgrp w) l (sched w) (log w).
Definition set_sched (s : list (list happening)) (w : World) : World :=
  mkWorld (kernel w) (joblist w) (blocked w) (pending w) (children w) (waitq w)
          (tty_pgrp w) (fork_results w) s (log w).
Definition emit (e : event) (w : World) : World :=
  mkWorld (kernel w) (joblist w) (blocked w) (pending w) (children w) (waitq w)
          (tty_pgrp w) (fork_results w) (sched w) (log w ++ [e]).

(** Ways a computation ends other than by returning.  A fault is an
    end the program cannot catch: the use of a reference to a job the
    table has dropped, a failed [assert], the use of a variable that was
    never assigned. *)
Inductive fault :=
| NoSuchJob (num : Z)
| AssertionFailed
| Uninitialised.

(** The lookups of the job table that can find nothing. *)
Inductive lookup :=
| JobByNumber (num : Z)
| JobByProcess (pid : Z)
| ProcessOfJob (num pid : Z)
| ForegroundJob.

Inductive stop :=
| Throw (what : string)
| Exit (status : Z)
| Exec (file : string) (argv : list string)
| Fault (f : fault)
| Hang
| OutOfFuel.

Inductive outcome (A : Type) :=
| Ret (a : A)
| Stop (s : stop).
Arguments Ret {A} a.
Arguments Stop {A} s.

Definition M (A : Type) : Type := World -> outcome A * World.

Definition ret {A} (a : A) : M A := fun w => (Ret a, w).

Definition bind {A B} (m : M A) (f : A -> M B) : M B :=
  fun w => match m w with
           | (Ret a, w') => f a w'
           | (Stop s, w') => (Stop s, w')
           end.

Notation "x <- m ;; k" := (bind m (fun x => k))
  (at level 100, m at next level, right associativity).
Notation "m ;;; k" := (bind m (fun _ => k))
  (at level 100, right associativity).

Definition halt_with {A} (s : stop) : M A := fun w => (Stop s, w).
Definition throw {A} (what : string) : M A := halt_with (Throw what).

(** Modelled from the spec: a lookup of the job table that finds nothing
    is an error surfaced to the caller, an exception caught at the
    prompt like those of the builtins (sections 4.3, 7 and 9).  The
    spec gives no text for these exceptions; the texts here follow the
    ones [SHCBuiltin] prints for the same conditions, and the statements
    below name them through [lookup_what] only. *)
Definition lookup_what (l : lookup) : string :=
  match l with
  | JobByNumber num => "No job with id of " +:+ CLib.to_string num +:+ "."
  | JobByProcess pid => "No process with pid " +:+ CLib.to_string pid +:+ "."
  | ProcessOfJob _ pid => "No process pid " +:+ CLib.to_string pid +:+ "."
  | ForegroundJob => "No foreground job."
  end.

Definition not_found {A} (l : lookup) : M A := throw (lookup_what l).
Definition get {A} (f : World -> A) : M A := fun w => (Ret (f w), w).
Definition modify (f : World -> World) : M unit := fun w => (Ret tt, f w).
Definition say (e : event) : M unit := modify (emit e).

Definition when (b : bool) (m : M unit) : M unit := if b then m else ret tt.

Fixpoint for_each {A} (l : list A) (body : A -> M unit) : M unit :=
  match l with
  | [] => ret tt
  | a :: r => body a ;;; for_each r body
  end.

(** *** System calls as the kernel performs them *)

Definition add_signal (s : signal) (l : list signal) : list signal :=
  if bool_decide (s ∈ l) then l else l ++ [s].

(** [kill] reaches the children of the shell that have not been reaped. *)
Definition raw_kill (pid : Z) (sig : signal) : M Z :=
  alive <- get (fun w => bool_decide (pid ∈ children w)) ;;
  let r := if alive then 0 else -1 in
  say (EKill pid sig r) ;;; ret r.

(** [waitpid(-1, &status, WNOHANG|WUNTRACED|WCONTINUED)]: the next state
    change not yet collected, 0 when there is none, -1 without children. *)
Definition raw_waitpid : M (Z * Z) := fun w =>
  match waitq w with
  | (pid, status) :: q =>
      let gone := WaitStatus.WIFEXITED status || WaitStatus.WIFSIGNALED status in
      let c := if gone then List.filter (fun c => negb (c =? pid)) (children w)
               else children w in
      (Ret (pid, status), emit (EWaitpid pid status) (set_children c (set_waitq q w)))
  | [] =>
      let r := match children w with [] => -1 | _ :: _ => 0 end in
      (Ret (r, 0), emit (EWaitpid r 0) w)
  end.

Definition raw_tcsetpgrp (pgid : Z) : M tc_status := fun w =>
  let r := tc_policy (kernel w) pgid in
  (Ret r, emit (ETcsetpgrp pgid r)
            (match r with TcOk => set_tty_pgrp pgid w | _ => w end)).

Definition raw_fork : M Z := fun w =>
  match fork_results w with
  | pid :: rest =>
      (Ret pid, emit (EFork pid)
                  (set_children (children w ++ [pid]) (set_fork_results rest w)))
  | [] => (Ret (-1), emit (EFork (-1)) w)
  end.

Definition getpid : M Z := get (fun w => shell_pid (kernel w)).
Definition getpgid_self : M Z := get (fun w => shell_pgid (kernel w)).

(** *** The job table inside the shell *)

(** [joblist.getJob(num)] *)
Definition getJob (n : Z) : M STSHJob := fun w =>
  match joblist w !! n with
  | Some j => (Ret j, w)
  | None => not_found (JobByNumber n) w
  end.

(** A use of the reference [job] that [addJob] or [getJob] returned
    earlier; jobs are referred to by number here, and once the table has
    dropped the job the reference dangles: no lookup is made and no
    exception is thrown. *)
Definition the_job (n : Z) : M STSHJob := fun w =>
  match joblist w !! n with
  | Some j => (Ret j, w)
  | None => (Stop (Fault (NoSuchJob n)), w)
  end.

Definition update_job (n : Z) (f : STSHJob -> STSHJob) : M unit :=
  j <- the_job n ;;
  modify (set_joblist (fun t => <[n := f j]> t)).

Definition addJob (s : STSHJobState) : M Z := fun w =>
  let '(n, t) := JobList.addJob s (joblist w) in
  (Ret n, emit (EAddJob n) (set_joblist (fun _ => t) w)).

Definition containsJob (n : Z) : M bool :=
  get (fun w => JobList.containsJob (CLib.to_size_t n) (joblist w)).

Definition containsProcess (pid : Z) : M bool :=
  get (fun w => JobList.containsProcess pid (joblist w)).

Definition getJobWithProcess (pid : Z) : M (Z * STSHJob) := fun w =>
  match JobList.getJobWithProcess pid (joblist w) with
  | Some nj => (Ret nj, w)
  | None => not_found (JobByProcess pid) w
  end.

Definition hasForegroundJob : M bool :=
  get (fun w => JobList.hasForegroundJob (joblist w)).

Definition getForegroundJob : M (Z * STSHJob) := fun w =>
  match JobList.getForegroundJob (joblist w) with
  | Some nj => (Ret nj, w)
  | None => not_found ForegroundJob w
  end.

Definition job_addProcess (n : Z) (p : STSHProcess) : M unit :=
  update_job n (fun j => JobList.job_addProcess j p) ;;;
  say (EAddProcess n (proc_pid p)).

Definition job_setState (n : Z) (s : STSHJobState) : M unit :=
  update_job n (fun j => JobList.job_setState j s) ;;;
  say (ESetJobState n s).

Definition job_getGroupID (n : Z) : M Z :=
  j <- the_job n ;; ret (job_pgid j).

Definition job_getProcesses (n : Z) : M (list STSHProcess) :=
  j <- the_job n ;; ret (job_processes j).

(** [job.getProcess(pid).setState(s)] *)
Definition process_setState (n pid : Z) (s : STSHProcessState) : M unit :=
  j <- the_job n ;;
  match JobList.job_getProcess j pid with
  | None => not_found (ProcessOfJob n pid)
  | Some _ =>
      modify (set_joblist (fun t => <[n := JobList.job_setProcessState j pid s]> t)) ;;;
      say (ESetProcessState n pid s)
  end.

(** [joblist.synchronize(job)]; when the table demotes a foreground job
    the terminal goes back to the shell. *)
Definition synchronize (n : Z) : M unit :=
  back <- (fun w => let '(t, back) := JobList.synchronize n (joblist w) in
                    (Ret back, emit (ESynchronize n) (set_joblist (fun _ => t) w))) ;;
  when back (g <- getpgid_self ;; raw_tcsetpgrp g ;;; ret tt).

(** *** Signal handlers *)

(** The four tests of [sigchldHandler] on [status], in the order of the
    source; [state] starts uninitialised. *)
Definition sigchld_state (status : Z) : option STSHProcessState :=
  let state := None in
  let state := if WaitStatus.WIFEXITED status then Some kTerminated else state in
  let state := if WaitStatus.WIFCONTINUED status then Some kRunning else state in
  let state := if WaitStatus.WIFSIGNALED status then Some kTerminated else state in
  let state := if WaitStatus.WIFSTOPPED status then Some kStopped else state in
  state.

Fixpoint sigchld_loop (fuel : nat) : M unit :=
  match fuel with
  | O => halt_with OutOfFuel
  | S fuel' =>
      ps <- raw_waitpid ;;
      let '(pid, status) := ps in
      if pid <=? 0 then ret tt
      else
        let state := sigchld_state status in
        nj <- getJobWithProcess pid ;;
        let '(job, j) := nj in
        (if JobList.job_containsProcess j pid then ret tt
         else halt_with (Fault AssertionFailed)) ;;;
        match state with
        | None => halt_with (Fault Uninitialised)
        | Some s => process_setState job pid s
        end ;;;
        synchronize job ;;;
        sigchld_loop fuel'
  end.

(** The loop runs once per state change waiting to be collected, and once
    more for the call of [waitpid] that ends it. *)
Definition sigchldHandler : M unit :=
  fun w => sigchld_loop (S (length (waitq w))) w.

Definition forward_to_foreground (sig : signal) : M unit :=
  fg <- hasForegroundJob ;;
  when fg (nj <- getForegroundJob ;;
           for_each (job_processes (snd nj))
                    (fun process => raw_kill (proc_pid process) sig ;;; ret tt)).

Definition sigintHandler : M unit := forward_to_foreground SIGINT.
Definition sigtstpHandler : M unit := forward_to_foreground SIGTSTP.

(** [installSignalHandlers]: the handler of each caught signal; SIGTTIN and
    SIGTTOU are ignored, the other signals are not caught. *)
Definition installSignalHandlers (sig : signal) : option (M unit) :=
  match sig with
  | SIGQUIT => Some (halt_with (Exit 0))
  | SIGCHLD => Some sigchldHandler
  | SIGINT => Some sigintHandler
  | SIGTSTP => Some sigtstpHandler
  | _ => None
  end.

(** *** Signal delivery *)

Fixpoint deliver_each (sigs : list signal) : M bool :=
  match sigs with
  | [] => ret false
  | s :: r =>
      match installSignalHandlers s with
      | Some handler =>
          say (EHandlerEnter s) ;;; handler ;;; say (EHandlerReturn s) ;;;
          deliver_each r ;;; ret true
      | None => deliver_each r
      end
  end.

(** Every pending signal that is not blocked is delivered; tells whether a
    handler ran. *)
Definition deliver : M bool := fun w =>
  let is_blocked := fun s => bool_decide (s ∈ blocked w) in
  let ready := List.filter (fun s => negb (is_blocked s)) (pending w) in
  deliver_each ready (set_pending (List.filter is_blocked (pending w)) w).

Definition happen (w : World) (h : happening) : World :=
  match h with
  | ChildChange pid status =>
      if bool_decide (pid ∈ children w)
      then set_pending (add_signal SIGCHLD (pending w))
             (set_waitq (waitq w ++ [(pid, status)]) w)
      else w
  | Arrive sig => set_pending (add_signal sig (pending w)) w
  end.

(** The environment takes its next step. *)
Definition advance : M unit := fun w =>
  match sched w with
  | [] => (Ret tt, w)
  | hs :: rest => (Ret tt, fold_left happen hs (set_sched rest w))
  end.

(** On return from a system call the environment has moved on and the
    signals that became deliverable are handled. *)
Definition tick : M unit := advance ;;; deliver ;;; ret tt.

(** *** System calls as the shell's main flow sees them *)

Definition kill (pid : Z) (sig : signal) : M Z :=
  r <- raw_kill pid sig ;; tick ;;; ret r.

Definition fork : M Z := pid <- raw_fork ;; tick ;;; ret pid.

Definition setpgid (pid pgid : Z) : M unit := say (ESetpgid pid pgid) ;;; tick.

Definition tcsetpgrp (pgid : Z) : M tc_status :=
  r <- raw_tcsetpgrp pgid ;; tick ;;; ret r.

Definition close (fd : fdesc) : M unit := say (EClose fd) ;;; tick.

Definition dup2 (from to : fdesc) : M unit := say (EDup2 from to) ;;; tick.

Definition pipe (i : Z) : M unit := say (EPipe i) ;;; tick.

Definition open (path : string) (flag : oflag) : M bool :=
  ok <- get (fun w => match flag with
                      | O_WRONLY_CREAT => true
                      | _ => file_exists (kernel w) path
                      end) ;;
  say (EOpen path flag ok) ;;; tick ;;; ret ok.

Definition sigprocmask (h : how) (set : list signal) : M (list signal) :=
  existing <- get blocked ;;
  modify (set_blocked (match h with
                       | SIG_BLOCK => list_union existing set
                       | SIG_UNBLOCK => list_difference existing set
                       end)) ;;;
  say (ESigprocmask h set) ;;; tick ;;; ret existing.

Fixpoint suspend (fuel : nat) : M unit :=
  match fuel with
  | O => halt_with OutOfFuel
  | S fuel' =>
      ran <- deliver ;;
      if ran then ret tt
      else fun w => match sched w with
                    | [] => (Stop Hang, w)
                    | _ :: _ => (advance ;;; suspend fuel') w
                    end
  end.

(** [sigsuspend(&mask)]: with [mask] as the blocked set, sleep until a
    handler has run, then restore the blocked set. *)
Definition sigsuspend (mask : list signal) : M unit :=
  say (ESigsuspend mask) ;;;
  old <- get blocked ;;
  modify (set_blocked mask) ;;;
  n <- get (fun w => length (sched w)) ;;
  suspend (S n) ;;;
  modify (set_blocked old).

Definition cout (s : string) : M unit := say (EStdout s).
Definition cerr (s : string) : M unit := say (EStderr s).

(** ** Builtins *)

Definition job_control_signals : list signal := [SIGINT; SIGCHLD; SIGTSTP; SIGCONT].

(** [while (joblist.hasForegroundJob()) sigsuspend(&existing);] *)
Fixpoint wait_foreground (fuel : nat) (existing : list signal) : M unit :=
  match fuel with
  | O => halt_with OutOfFuel
  | S fuel' =>
      fg <- hasForegroundJob ;;
      if fg then sigsuspend existing ;;; wait_foreground fuel' existing
      else ret tt
  end.

(** The test [(strlen(first) > 0 && strlen(ptr) > 0) || ret < 0]. *)
Definition bad_number (first : string) : bool :=
  let '(ret, ptr) := CLib.strtol first in
  ((0 <? CLib.strlen first) && (0 <? CLib.strlen ptr)) || (ret <? 0).

Definition fgBuiltin (fuel : nat) (p : pipeline) (index : Z) : M unit :=
  match token p 0 with
  | None => throw "Usage: fg <jobid>."
  | Some first =>
      let num := CLib.atoi first in
      if bad_number first then throw "Usage: fg <jobid>."
      else
        known <- containsJob num ;;
        if negb known
        then throw ("fg " +:+ CLib.to_string num +:+ ":  No such job.")
        else
          let job := CLib.to_size_t num in
          processes <- job_getProcesses job ;;
          let mask := job_control_signals in
          existing <- sigprocmask SIG_BLOCK mask ;;
          for_each processes
            (fun process =>
               r <- kill (proc_pid process) SIGCONT ;;
               when (r =? 0) (job_setState job kForeground)) ;;;
          synchronize job ;;;
          wait_foreground fuel existing ;;;
          sigprocmask SIG_UNBLOCK mask ;;; ret tt
  end.

Definition bgBuiltin (p : pipeline) (index : Z) : M unit :=
  match token p 0 with
  | None => throw "Usage: bg <jobid>."
  | Some first =>
      let num := CLib.atoi first in
      if bad_number first then throw "Usage: bg <jobid>."
      else
        known <- containsJob num ;;
        if negb known
        then throw ("bg " +:+ CLib.to_string num +:+ ":  No such job.")
        else
          let job := CLib.to_size_t num in
          processes <- job_getProcesses job ;;
          for_each processes
            (fun process => kill (proc_pid process) SIGCONT ;;; ret tt) ;;;
          synchronize job
  end.

(** The first [switch] of [SHCBuiltin]: no [case] ends in [break], so
    control falls from the matching label through every later one. *)
Definition SHC_killer (index : Z) : option signal :=
  let killer := None in
  let entered := index =? 4 in
  let killer := if entered then Some SIGKILL else killer in
  let entered := entered || (index =? 5) in
  let killer := if entered then Some SIGSTOP else killer in
  let entered := entered || (index =? 6) in
  let killer := if entered then Some SIGCONT else killer in
  killer.

(** The second [switch] of [SHCBuiltin]; [builtin] starts as the empty
    string. *)
Definition SHC_builtin (index : Z) : string :=
  let builtin := "" in
  let entered := index =? 4 in
  let builtin := if entered then "slay" else builtin in
  let entered := entered || (index =? 5) in
  let builtin := if entered then "halt" else builtin in
  let entered := entered || (index =? 6) in
  let builtin := if entered then "cont" else builtin in
  builtin.

(** [kill(pid, killer)] where [killer] may never have been assigned. *)
Definition kill_with (pid : Z) (killer : option signal) : M unit :=
  match killer with
  | Some sig => kill pid sig ;;; ret tt
  | None => halt_with (Fault Uninitialised)
  end.

Definition SHCBuiltin (p : pipeline) (index : Z) : M unit :=
  let first := token p 0 in
  let second := token p 1 in
  let killer := SHC_killer index in
  let builtin := SHC_builtin index in
  match first with
  | None => throw ("Usage: " +:+ builtin +:+ " <jobid> <index> | <pid>.")
  | Some first =>
      let num := CLib.atoi first in
      match second with
      | None =>
          if bad_number first then throw "Usage: bg <jobid>."
          else
            known <- containsProcess num ;;
            if negb known
            then throw ("No process with pid " +:+ CLib.to_string num +:+ ".")
            else
              nj <- getJobWithProcess num ;;
              let processes := job_processes (snd nj) in
              for_each processes
                (fun process => kill_with (proc_pid process) killer)
      | Some second =>
          known <- containsJob num ;;
          if negb known
          then throw ("No job with id of " +:+ CLib.to_string num +:+ ".")
          else
            job <- getJob (CLib.to_size_t num) ;;
            let pid := CLib.atoi second in
            if negb (JobList.job_containsProcess job pid)
            then throw ("No process pid " +:+ CLib.to_string pid +:+ ".")
            else
              match JobList.job_getProcess job pid with
              | None => not_found (ProcessOfJob (CLib.to_size_t num) pid)
              | Some process => kill_with (proc_pid process) killer
              end
      end
  end.

Definition kSupportedBuiltins : list string :=
  ["quit"; "exit"; "fg"; "bg"; "slay"; "halt"; "cont"; "jobs"].

(** [std::find] over [kSupportedBuiltins]: the index of the first entry
    equal to [command], if any. *)
Fixpoint find_builtin (command : string) (l : list string) (i : Z) : option Z :=
  match l with
  | [] => None
  | b :: r => if bool_decide (b = command) then Some i else find_builtin command r (i + 1)
  end.

Definition handleBuiltin (fuel : nat) (p : pipeline) : M bool :=
  match commands p with
  | [] => halt_with (Fault AssertionFailed)
  | c :: _ =>
      match find_builtin (cmd_command c) kSupportedBuiltins 0 with
      | None => ret false
      | Some index =>
          (if (index =? 0) || (index =? 1) then halt_with (Exit 0)
           else if index =? 2 then fgBuiltin fuel p index
           else if index =? 3 then bgBuiltin p index
           else if (index =? 4) || (index =? 5) || (index =? 6) then SHCBuiltin p index
           else if index =? 7 then say EStdoutJobList
           else throw "Internal Error: Builtin command not supported.") ;;;
          ret true
      end
  end.

(** ** The pipeline launcher *)

Definition Dup2 (infd1 infd2 : fdesc) : M unit :=
  dup2 infd1 infd2 ;;; close infd1.

Definition Close (i : Z) : M unit :=
  close (fds i 0) ;;; close (fds i 1).

Definition endl : string := String (ascii_of_nat 10) "".

Definition printBG (job : Z) : M unit :=
  processes <- job_getProcesses job ;;
  cout (fold_left (fun s process => s +:+ " " +:+ CLib.to_string (proc_pid process))
                  processes ("[" +:+ CLib.to_string job +:+ "]") +:+ endl).

Definition nonempty (s : string) : bool := negb (bool_decide (s = "")).

(** [execvp] returns only when it fails. *)
Definition execvp (file : string) (argv : list string) : M Z := fun w =>
  if program_exists (kernel w) file then (Stop (Exec file argv), w)
  else (Ret (-1), emit (EExecvp file argv (-1)) w).

(** The descriptor wiring a child does in a pipeline of [count >= 2]
    commands. *)
Definition wire_pipes (p : pipeline) (count i : Z) : M unit :=
  (if i =? 0 then
     when (nonempty (input p)) (Dup2 infd STDIN_FILENO) ;;;
     close (fds 0 0) ;;;
     Dup2 (fds 0 1) STDOUT_FILENO ;;;
     Close count
   else if i =? count - 1 then
     when (nonempty (output p)) (Dup2 outfd STDOUT_FILENO) ;;;
     close (fds (i - 1) 1) ;;;
     Dup2 (fds (i - 1) 0) STDIN_FILENO ;;;
     Close 0
   else
     close (fds (i - 1) 1) ;;;
     Dup2 (fds (i - 1) 0) STDIN_FILENO ;;;
     close (fds i 0) ;;;
     Dup2 (fds i 1) STDOUT_FILENO ;;;
     Close 0 ;;;
     Close (count - 1)) ;;;
  for_each (seqZ 1 (count - 2 - 1)) Close.

(** The body of the launch loop once [fork] has returned [pid]: the child
    ([pid = 0]) wires its descriptors and calls [execvp]; the parent
    records the process. *)
Definition after_fork (p : pipeline) (job : Z) (count i : Z) (cmd : command) (pid : Z)
  : M unit :=
  if pid =? 0 then
    gid <- job_getGroupID job ;;
    setpgid pid gid ;;;
    (if count =? 1 then
       when (nonempty (input p)) (Dup2 infd STDIN_FILENO) ;;;
       when (nonempty (output p)) (Dup2 outfd STDOUT_FILENO)
     else wire_pipes p count i) ;;;
    let args := cmd_command cmd :: cmd_tokens cmd in
    let str := cmd_command cmd in
    r <- execvp (cmd_command cmd) args ;;
    when (r <? 0) (throw (str +:+ ": Command not found."))
  else
    job_addProcess job (mkProcess pid cmd kRunning) ;;;
    gid <- job_getGroupID job ;;
    setpgid pid gid.

Definition authority_check (r : tc_status) : M unit :=
  match r with
  | TcEPERM => throw "authority error."
  | _ => ret tt
  end.

Definition indexed_commands (p : pipeline) : list (Z * command) :=
  imap (fun i cmd => (Z.of_nat i, cmd)) (commands p).

(** [createJob] up to the call that blocks the job-control signals; the
    result is the signal mask in force before that call. *)
Definition createJob_launch (p : pipeline) : M (Z * list signal) :=
  let state := if background p then kBackground else kForeground in
  job <- addJob state ;;
  let mask := [SIGCHLD; SIGINT; SIGTSTP; SIGCONT] in
  let count := Z.of_nat (length (commands p)) in
  when (nonempty (input p)) (open (input p) O_RDONLY ;;; ret tt) ;;;
  when (nonempty (output p))
       (ok <- open (output p) O_WRONLY_TRUNC ;;
        when (negb ok) (open (output p) O_WRONLY_CREAT ;;; ret tt)) ;;;
  for_each (seqZ 0 (count - 1)) pipe ;;;
  for_each (indexed_commands p)
           (fun ic => pid <- fork ;; after_fork p job count (fst ic) (snd ic) pid) ;;;
  for_each (seqZ 0 (count - 1)) Close ;;;
  when (background p) (printBG job) ;;;
  fg <- hasForegroundJob ;;
  when fg (gid <- job_getGroupID job ;;
           r <- tcsetpgrp gid ;; authority_check r) ;;;
  own <- getpgid_self ;;
  r <- tcsetpgrp own ;;
  authority_check r ;;;
  existing <- sigprocmask SIG_BLOCK mask ;;
  ret (job, existing).

Definition createJob (fuel : nat) (p : pipeline) : M unit :=
  je <- createJob_launch p ;;
  let mask := [SIGCHLD; SIGINT; SIGTSTP; SIGCONT] in
  wait_foreground fuel (snd je) ;;;
  sigprocmask SIG_UNBLOCK mask ;;; ret tt.

(** ** [main] *)

(** The [catch] clause of the read-eval-print loop: the message goes to
    stderr, and a process other than the shell exits with status 0. *)
Definition try_catch (stshpid : Z) (body : M unit) : M unit := fun w =>
  match body w with
  | (Stop (Throw what), w') =>
      (cerr what ;;;
       me <- getpid ;;
       if negb (me =? stshpid) then halt_with (Exit 0) else ret tt) w'
  | r => r
  end.

(** One round of the loop of [main] on a parsed line.  A result [Ret tt]
    means that the process goes on to read the next line. *)
Definition repl_round (fuel : nat) (stshpid : Z) (p : pipeline) : M unit :=
  try_catch stshpid
    (builtin <- handleBuiltin fuel p ;;
     if negb builtin then createJob fuel p else ret tt).

(** The world of the child that [fork] creates: a copy of the shell's
    memory and signal mask under a pid of its own, with no children. *)
Definition child_world (w : World) (pid : Z) : World :=
  {| kernel := {| shell_pid := pid;
                  shell_pgid := shell_pgid (kernel w);
                  tc_policy := tc_policy (kernel w);
                  file_exists := file_exists (kernel w);
                  program_exists := program_exists (kernel w) |};
     joblist := joblist w;
     blocked := blocked w;
     pending := [];
     children := [];
     waitq := [];
     tty_pgrp := tty_pgrp w;
     fork_results := [];
     sched := [];
     log := [] |}.

(** The child forked for command [i]: it resumes the round of the loop the
    shell was in, with 0 as the result of [fork]. *)
Definition child_round (stshpid : Z) (p : pipeline) (job : Z) (i : Z) (cmd : command)
  : M unit :=
  try_catch stshpid
    (after_fork p job (Z.of_nat (length (commands p))) i cmd 0).

(** ** The reaper as the specification words it *)

(** The table of section 4.4: wait classification to new process state. *)
Definition spec_state (status : Z) : option STSHProcessState :=
  if WaitStatus.WIFEXITED status then Some kTerminated
  else if WaitStatus.WIFSIGNALED status then Some kTerminated
  else if WaitStatus.WIFSTOPPED status then Some kStopped
  else if WaitStatus.WIFCONTINUED status then Some kRunning
  else None.

(** One reported event: the process of the owning job takes the state of
    the table, then the job is synchronized. *)
Definition spec_reap_event (ev : Z * Z) : M unit :=
  nj <- getJobWithProcess (fst ev) ;;
  match spec_state (snd ev) with
  | Some s => process_setState (fst nj) (fst ev) s ;;; synchronize (fst nj)
  | None => halt_with (Fault Uninitialised)
  end.

(** One non-blocking wait and its event per state change, in the order the
    kernel reports them, and a last wait that reports nothing. *)
Definition spec_reaper (events : list (Z * Z)) : M unit :=
  for_each events (fun ev => raw_waitpid ;;; spec_reap_event ev) ;;;
  raw_waitpid ;;; ret tt.

(** What one reported event does to the job table: the process of the
    owning job takes the state of the table of section 4.4, then the job
    is synchronized.  An event for a pid that no job holds, or with a
    status outside the table, leaves the job table as it is. *)
Definition spec_table_event (t : gmap Z STSHJob) (ev : Z * Z) : gmap Z STSHJob :=
  match JobList.getJobWithProcess (fst ev) t, spec_state (snd ev) with
  | Some (n, j), Some s =>
      fst (JobList.synchronize n (<[n := JobList.job_setProcessState j (fst ev) s]> t))
  | _, _ => t
  end.

(** ** Scenarios *)

Module Scenario.

Definition stshpid : Z := 1000.

(** A terminal session in which [cat], [wc] and [sleep] can be run and
    no file exists. *)
Definition session : Kernel :=
  {| shell_pid := stshpid;
     shell_pgid := 1000;
     tc_policy := fun _ => TcOk;
     file_exists := fun _ => false;
     program_exists := fun f => bool_decide (f ∈ ["cat"; "wc"; "sleep"]) |}.

(** The shell at its prompt with an empty job table; [forks] are the
    pids the kernel will hand out, [todo] what the environment does at
    each system call to come. *)
Definition prompt (forks : list Z) (todo : list (list happening)) : World :=
  {| kernel := session; joblist := ∅; blocked := []; pending := [];
     children := []; waitq := []; tty_pgrp := 1000;
     fork_results := forks; sched := todo; log := [] |}.

Definition line (name : string) (args : list string) : pipeline :=
  {| commands := [mkCommand name args]; input := ""; output := ""; background := false |}.

Definition pipe_line (names : list string) : pipeline :=
  {| commands := List.map (fun n => mkCommand n []) names;
     input := ""; output := ""; background := false |}.

(** Job 1 is the stopped pipeline [cat | wc] (pids 100 and 101), job 2
    is [sleep 30] running in the background (pid 200). *)
Definition job1 : STSHJob :=
  {| job_num := 1; job_pgid := 100; job_state := kBackground;
     job_processes := [mkProcess 100 (mkCommand "cat" []) kStopped;
                       mkProcess 101 (mkCommand "wc" []) kStopped] |}.

Definition job2 : STSHJob :=
  {| job_num := 2; job_pgid := 200; job_state := kBackground;
     job_processes := [mkProcess 200 (mkCommand "sleep" ["30"]) kRunning] |}.

Definition two_jobs (todo : list (list happening)) : World :=
  {| kernel := session; joblist := <[2 := job2]> (<[1 := job1]> ∅);
     blocked := []; pending := [];
     children := [100; 101; 200]; waitq := []; tty_pgrp := 1000;
     fork_results := []; sched := todo; log := [] |}.

(** The child forked for command [i] of [p], whose job is [job]. *)
Definition child (p : pipeline) (job i pid : Z) (parent : World) : outcome unit * World :=
  match commands p !! Z.to_nat i with
  | Some cmd => child_round stshpid p job i cmd (child_world parent pid)
  | None => (Stop (Fault AssertionFailed), parent)
  end.

(** The shell just after [addJob] for a foreground pipeline. *)
Definition launching : World := snd (addJob kForeground (prompt [] [])).

(** The shell when [createJob] has launched [sleep 30] in the foreground,
    as child 2001, and is about to enter its wait loop. *)
Definition waiting : World :=
  snd (createJob_launch (line "sleep" ["30"]) (prompt [2001] [])).

(** Three state changes wait to be collected: 100 was continued, 101
    was killed, 200 exited. *)
Definition storm : World :=
  {| kernel := session; joblist := <[2 := job2]> (<[1 := job1]> ∅);
     blocked := []; pending := [];
     children := [100; 101; 200];
     waitq := [(100, WaitStatus.continued); (101, WaitStatus.signaled 9);
               (200, WaitStatus.exited 0)];
     tty_pgrp := 1000; fork_results := []; sched := []; log := [] |}.

End Scenario.

(** ** Properties of worlds and of programs *)

(** Nothing is scheduled and no signal is pending: the state of a process
    just forked. *)
Definition quiet (w : World) : Prop := sched w = [] /\ pending w = [].

Definition emits (evs : list event) (w : World) : World :=
  fold_left (fun w e => emit e w) evs w.

(** In a quiet world [m] returns after adding exactly [evs] to the log. *)
Definition does (m : M unit) (evs : list event) : Prop :=
  forall w, quiet w -> m w = (Ret tt, emits evs w).

(** [m] preserves the property [Inv] of the world, however it ends. *)
Definition keeps (Inv : World -> Prop) {A} (m : M A) : Prop :=
  forall w, Inv w -> Inv (snd (m w)).

Definition kernel_is (K : Kernel) (w : World) : Prop := kernel w = K.

(** The terminal belongs to the shell's own process group. *)
Definition terminal_at_home (w : World) : Prop :=
  tty_pgrp w = shell_pgid (kernel w).

(** So far [tcsetpgrp] was only ever called for the shell's own group. *)
Definition only_home_calls (w : World) : Prop :=
  forall g r, In (ETcsetpgrp g r) (log w) -> g = shell_pgid (kernel w).

Definition shell_holds_terminal (w : World) : Prop :=
  terminal_at_home w /\ only_home_calls w.

(** ** Properties of the builtins, of the handlers and of the launcher *)

(** Every character of [s] is a decimal digit. *)
Fixpoint only_digits (s : string) : bool :=
  match s with
  | EmptyString => true
  | String c r => bool_decide (is_Some (CLib.digit c)) && only_digits r
  end.

(** A numeric argument that is missing, or whose last character is not a
    decimal digit. *)
Definition malformed (t : option string) : Prop :=
  t = None \/ exists s c, t = Some (s +:+ String c "") /\ CLib.digit c = None.

(** [m] preserves [Inv], and the only exceptions it can end in are those
    of the lookups of the job table. *)
Definition steady (Inv : World -> Prop) {A} (m : M A) : Prop :=
  forall w, Inv w ->
    Inv (snd (m w)) /\
    forall what, fst (m w) = Stop (Throw what) -> exists l, what = lookup_what l.


(** No job of the table is in the foreground. *)
Definition no_foreground (t : gmap Z STSHJob) : Prop :=
  forall n j, t !! n = Some j -> job_state j = kBackground.

Definition calm (w : World) : Prop := no_foreground (joblist w).

(** The [kill] calls that send [sig] to each of [ps] in order, with the
    result the kernel gives in world [w]. *)
Definition kills (sig : signal) (w : World) (ps : list STSHProcess) : list event :=
  List.map (fun process =>
              EKill (proc_pid process) sig
                    (if bool_decide (proc_pid process ∈ children w) then 0 else -1)) ps.


(** ** [stsh.cc] before the builtins were written *)

Module Starter.

(** [handleBuiltin] of the first version: only [quit], [exit] and [jobs]
    are handled, the other supported names reach [default]. *)
Definition handleBuiltin (p : pipeline) : M bool :=
  match commands p with
  | [] => halt_with (Fault AssertionFailed)
  | c :: _ =>
      match find_builtin (cmd_command c) kSupportedBuiltins 0 with
      | None => ret false
      | Some index =>
          (if (index =? 0) || (index =? 1) then halt_with (Exit 0)
           else if index =? 7 then say EStdoutJobList
           else throw "Internal Error: Builtin command not supported.") ;;;
          ret true
      end
  end.

End Starter.

(** * Theorems *)

Import Scenario.

(** ** Computing with the monad *)

Lemma bind_Ret_inv {A B} (m : M A) (f : A -> M B) w b w' :
  bind m f w = (Ret b, w') ->
  exists a w1, m w = (Ret a, w1) /\ f a w1 = (Ret b, w').
Proof.
  unfold bind. destruct (m w) as [[a|s] w1]; intros H; [eauto | discriminate].
Qed.

Lemma keeps_result (Inv : World -> Prop) {A} (m : M A) w r w' :
  keeps Inv m -> Inv w -> m w = (r, w') -> Inv w'.
Proof. intros K I E. specialize (K w I). rewrite E in K. exact K. Qed.

(** ** The signalling builtins *)

(** C1 (the code departs from the claim): the two [switch] statements of
    [SHCBuiltin] fall through, so no builtin ever delivers SIGKILL or
    SIGSTOP.  With job 2 made of the single process 200, [slay 200] and
    [halt 200] both send SIGCONT to it, and the usage diagnostic of [slay]
    names [cont]. *)
Theorem SHCBuiltin_always_sends_SIGCONT :
  (forall index, SHC_killer index <> Some SIGKILL /\ SHC_killer index <> Some SIGSTOP) /\
  SHC_builtin 4 = "cont" /\ SHC_builtin 5 = "cont" /\
  log (snd (repl_round 1 stshpid (line "slay" ["200"]) (two_jobs []))) = [EKill 200 SIGCONT 0] /\
  log (snd (repl_round 1 stshpid (line "halt" ["200"]) (two_jobs []))) = [EKill 200 SIGCONT 0] /\
  log (snd (repl_round 1 stshpid (line "slay" []) (two_jobs [])))
  = [EStderr "Usage: cont <jobid> <index> | <pid>."].
Proof.
  split.
  - intros index. unfold SHC_killer.
    destruct (index =? 4), (index =? 5), (index =? 6); cbn; split; discriminate.
  - repeat split; vm_compute; reflexivity.
Qed.

(** C7 (the code departs from the claim): with the single argument 101,
    a pid of the two-process job 1, the signal goes to both processes of
    that job; with two arguments the second one is looked up as a pid of
    the job, so [cont 1 0] finds no process while [cont 1 101] signals
    pid 101. *)
Theorem SHCBuiltin_pid_form_signals_the_whole_job :
  log (snd (repl_round 1 stshpid (line "cont" ["101"]) (two_jobs [])))
  = [EKill 100 SIGCONT 0; EKill 101 SIGCONT 0] /\
  log (snd (repl_round 1 stshpid (line "cont" ["1"; "0"]) (two_jobs [])))
  = [EStderr "No process pid 0."] /\
  log (snd (repl_round 1 stshpid (line "cont" ["1"; "101"]) (two_jobs [])))
  = [EKill 101 SIGCONT 0].
Proof. repeat split; vm_compute; reflexivity. Qed.

(** C9 (the code departs from the claim): the two-argument form checks
    neither argument, so [cont 1abc 101xyz] signals pid 101 of job 1; the
    one-argument form and [fg] reject the same malformed numbers. *)
Theorem SHCBuiltin_accepts_trailing_garbage :
  repl_round 1 stshpid (line "cont" ["1abc"; "101xyz"]) (two_jobs [])
  = (Ret tt, emit (EKill 101 SIGCONT 0) (two_jobs [])) /\
  log (snd (repl_round 1 stshpid (line "cont" ["101xyz"]) (two_jobs [])))
  = [EStderr "Usage: bg <jobid>."] /\
  log (snd (repl_round 1 stshpid (line "fg" ["1abc"]) (two_jobs [])))
  = [EStderr "Usage: fg <jobid>."].
Proof. repeat split; vm_compute; reflexivity. Qed.

(** ** The SIGCHLD handler *)

Section Reaper.

Lemma land_127 (s : Z) : Z.land s 127 = s mod 128.
Proof. change 127 with (Z.ones 7). rewrite Z.land_ones by lia. reflexivity. Qed.

Lemma land_255 (s : Z) : Z.land s 255 = s mod 256.
Proof. change 255 with (Z.ones 8). rewrite Z.land_ones by lia. reflexivity. Qed.

Lemma sigchld_state_table (status : Z) : sigchld_state status = spec_state status.
Proof.
  unfold sigchld_state, spec_state, WaitStatus.WIFEXITED, WaitStatus.WIFSIGNALED,
    WaitStatus.WIFSTOPPED, WaitStatus.WIFCONTINUED, WaitStatus.WTERMSIG.
  rewrite land_127, land_255, Z.shiftr_div_pow2 by lia.
  change (2 ^ 1) with 2.
  destruct (Z.eqb_spec (status mod 128) 0) as [E|E];
    destruct (Z.eqb_spec (status mod 256) 127) as [S|S];
    destruct (Z.eqb_spec status 65535) as [C|C];
    destruct (Z.leb_spec 128 (status mod 128 + 1)) as [B|B].
  all: cbv beta iota.
  all: try match goal with |- context [0 <? ?d] => destruct (Z.ltb_spec 0 d) as [G|G] end.
  all: try reflexivity.
  all: exfalso.
  all: try (subst; vm_compute in E; congruence).
  all: try (subst; vm_compute in S; congruence).
  all: try (Z.div_mod_to_equations; lia).
Qed.

Lemma getJobWithProcess_contains pid t n j :
  JobList.getJobWithProcess pid t = Some (n, j) ->
  JobList.job_containsProcess j pid = true.
Proof.
  unfold JobList.getJobWithProcess. intros H.
  apply find_some in H as [_ H]. exact H.
Qed.

Lemma getJobWithProcess_lookup pid (t : gmap Z STSHJob) n j :
  JobList.getJobWithProcess pid t = Some (n, j) -> t !! n = Some j.
Proof.
  unfold JobList.getJobWithProcess. intros H. apply find_some in H as [I _].
  apply list_elem_of_In, elem_of_map_to_list in I. exact I.
Qed.

Lemma raw_tcsetpgrp_waitq g w : waitq (snd (raw_tcsetpgrp g w)) = waitq w.
Proof. unfold raw_tcsetpgrp. cbn. destruct (tc_policy (kernel w) g); reflexivity. Qed.

Lemma synchronize_waitq n w : waitq (snd (synchronize n w)) = waitq w.
Proof.
  unfold synchronize, bind. destruct (JobList.synchronize n (joblist w)) as [t back].
  destruct back; cbn; [|reflexivity].
  destruct (tc_policy _ _); reflexivity.
Qed.

Lemma process_setState_waitq n pid s w :
  waitq (snd (process_setState n pid s w)) = waitq w.
Proof.
  unfold process_setState, bind, the_job.
  destruct (joblist w !! n) as [j|]; [|reflexivity].
  destruct (JobList.job_getProcess j pid); reflexivity.
Qed.

Lemma spec_reap_event_waitq ev w : waitq (snd (spec_reap_event ev w)) = waitq w.
Proof.
  unfold spec_reap_event, bind, getJobWithProcess.
  destruct (JobList.getJobWithProcess _ _) as [[n j]|]; [|reflexivity].
  destruct (spec_state _); [|reflexivity]. cbn [fst].
  pose proof (process_setState_waitq n (fst ev) s w) as P.
  destruct (process_setState n (fst ev) s w) as [[[]|?] w1]; cbn in P |- *; [|exact P].
  rewrite synchronize_waitq. exact P.
Qed.

(** One turn of the loop of the handler is one event of the specification. *)
Lemma sigchld_turn pid status (k : M unit) w :
  (nj <- getJobWithProcess pid ;;
   let '(job, j) := nj in
   (if JobList.job_containsProcess j pid then ret tt
    else halt_with (Fault AssertionFailed)) ;;;
   match sigchld_state status with
   | None => halt_with (Fault Uninitialised)
   | Some s => process_setState job pid s
   end ;;;
   synchronize job ;;; k) w
  = (spec_reap_event (pid, status) ;;; k) w.
Proof.
  unfold spec_reap_event. cbn [fst snd]. rewrite sigchld_state_table.
  unfold bind at 1 5 6. unfold getJobWithProcess.
  destruct (JobList.getJobWithProcess pid (joblist w)) as [[n j]|] eqn:G; [|reflexivity].
  rewrite (getJobWithProcess_contains _ _ _ _ G).
  unfold bind, ret. cbn [fst].
  destruct (spec_state status); [|reflexivity].
  destruct (process_setState n pid s w) as [[[]|?] w1]; [|reflexivity].
  destruct (synchronize n w1) as [[[]|?] w2]; reflexivity.
Qed.

Lemma sigchld_loop_S fuel w :
  sigchld_loop (S fuel) w
  = (ps <- raw_waitpid ;;
     let '(pid, status) := ps in
     if pid <=? 0 then ret tt
     else
       nj <- getJobWithProcess pid ;;
       let '(job, j) := nj in
       (if JobList.job_containsProcess j pid then ret tt
        else halt_with (Fault AssertionFailed)) ;;;
       match sigchld_state status with
       | None => halt_with (Fault Uninitialised)
       | Some s => process_setState job pid s
       end ;;;
       synchronize job ;;; sigchld_loop fuel) w.
Proof. reflexivity. Qed.

Lemma raw_waitpid_next pid status q w :
  waitq w = (pid, status) :: q ->
  exists w1, raw_waitpid w = (Ret (pid, status), w1) /\ waitq w1 = q.
Proof. intros H. unfold raw_waitpid. rewrite H. eexists. split; reflexivity. Qed.

Lemma sigchld_loop_spec q : forall w,
  waitq w = q -> Forall (fun ev => 0 < fst ev) q ->
  sigchld_loop (S (length q)) w = spec_reaper q w.
Proof.
  induction q as [|[pid status] q IH]; intros w Hq Hpos.
  - unfold spec_reaper. cbn [length sigchld_loop for_each].
    unfold bind, raw_waitpid, ret. rewrite Hq.
    destruct (children w); reflexivity.
  - inversion Hpos as [|? ? Hp Hpos']; subst. cbn [fst] in Hp.
    change (length ((pid, status) :: q)) with (S (length q)).
    rewrite sigchld_loop_S.
    destruct (raw_waitpid_next _ _ _ _ Hq) as (w1 & R & Hq1).
    unfold spec_reaper. cbn [for_each].
    unfold bind at 1. rewrite R.
    destruct (Z.leb_spec pid 0) as [?|_]; [lia|].
    rewrite sigchld_turn.
    unfold bind at 2 3 4. rewrite R.
    pose proof (spec_reap_event_waitq (pid, status) w1) as W.
    unfold bind at 1.
    destruct (spec_reap_event (pid, status) w1) as [[[]|?] w2]; [|reflexivity].
    cbn in W. rewrite Hq1 in W. rewrite (IH w2 W Hpos'). reflexivity.
Qed.

Lemma spec_reaper_cons ev q w :
  spec_reaper (ev :: q) w = (raw_waitpid ;;; spec_reap_event ev ;;; spec_reaper q) w.
Proof.
  unfold spec_reaper. cbn [for_each]. unfold bind.
  destruct (raw_waitpid w) as [[?|?] w1]; [|reflexivity].
  destruct (spec_reap_event ev w1) as [[?|?] w2]; reflexivity.
Qed.

Lemma spec_reaper_ends q : forall w w',
  waitq w = q ->
  spec_reaper q w = (Ret tt, w') ->
  waitq w' = [] /\ exists r, r <= 0 /\ last (log w') = Some (EWaitpid r 0).
Proof.
  induction q as [|[pid status] q IH]; intros w w' Hq H.
  - unfold spec_reaper in H. cbn [for_each] in H.
    unfold bind, ret, raw_waitpid in H. rewrite Hq in H.
    injection H as <-. split; [exact Hq|].
    exists (match children w with [] => -1 | _ :: _ => 0 end).
    split; [destruct (children w); lia|].
    cbn. apply last_snoc.
  - rewrite spec_reaper_cons in H.
    destruct (raw_waitpid_next _ _ _ _ Hq) as (w1 & R & Hq1).
    apply bind_Ret_inv in H as (a & w1' & R' & H).
    rewrite R in R'. injection R' as <- <-.
    apply bind_Ret_inv in H as ([] & w2 & E & H).
    pose proof (spec_reap_event_waitq (pid, status) w1) as W.
    rewrite E in W. cbn in W.
    apply (IH w2 w'); [congruence | exact H].
Qed.

(** The statuses the kernel reports fall in the classes of the table. *)
Example kernel_statuses_classified :
  spec_state (WaitStatus.exited 0) = Some kTerminated /\
  spec_state (WaitStatus.exited 1) = Some kTerminated /\
  spec_state (WaitStatus.signaled 2) = Some kTerminated /\
  spec_state (WaitStatus.signaled 9) = Some kTerminated /\
  spec_state (WaitStatus.stopped 19) = Some kStopped /\
  spec_state (WaitStatus.stopped 21) = Some kStopped /\
  spec_state WaitStatus.continued = Some kRunning.
Proof. repeat split; vm_compute; reflexivity. Qed.

(** The process that [getProcess] finds has the state just set. *)
Lemma set_process_state_hit pid s ps :
  existsb (fun p => proc_pid p =? pid) ps = true ->
  proc_state <$> find (fun p => proc_pid p =? pid) (JobList.set_process_state pid s ps)
  = Some s.
Proof.
  induction ps as [|p ps IH]; cbn [existsb JobList.set_process_state]; [discriminate|].
  destruct (proc_pid p =? pid) eqn:E; cbn [orb find].
  - intros _. cbn. rewrite E. reflexivity.
  - rewrite E. exact IH.
Qed.

(** The processes found under another pid are the ones found before. *)
Lemma set_process_state_miss pid s q ps :
  q <> pid ->
  find (fun p => proc_pid p =? q) (JobList.set_process_state pid s ps)
  = find (fun p => proc_pid p =? q) ps.
Proof.
  intros N. induction ps as [|p ps IH]; cbn [JobList.set_process_state find]; [reflexivity|].
  destruct (proc_pid p =? pid) eqn:E; cbn [find].
  - apply Z.eqb_eq in E. cbn [JobList.proc_setState proc_pid].
    destruct (Z.eqb_spec (proc_pid p) q) as [Q|_]; [lia | reflexivity].
  - destruct (proc_pid p =? q); [reflexivity | exact IH].
Qed.

Lemma synchronize_other n m (t : gmap Z STSHJob) :
  m <> n -> fst (JobList.synchronize n t) !! m = t !! m.
Proof.
  intros N. unfold JobList.synchronize. destruct (t !! n) as [j|]; [|reflexivity].
  destruct (JobList.all_terminated j); cbn [fst].
  - apply lookup_delete_ne. congruence.
  - destruct (_ && _); cbn [fst]; [apply lookup_insert_ne; congruence | reflexivity].
Qed.

Lemma synchronize_same n (t : gmap Z STSHJob) j :
  t !! n = Some j ->
  match fst (JobList.synchronize n t) !! n with
  | Some j' => job_processes j' = job_processes j
  | None => JobList.all_terminated j = true
  end.
Proof.
  intros L. unfold JobList.synchronize. rewrite L.
  destruct (JobList.all_terminated j) eqn:T; cbn [fst].
  - rewrite lookup_delete_eq. reflexivity.
  - destruct (_ && _); cbn [fst]; [rewrite lookup_insert_eq | rewrite L]; reflexivity.
Qed.

Lemma raw_waitpid_joblist w : joblist (snd (raw_waitpid w)) = joblist w.
Proof. unfold raw_waitpid. destruct (waitq w) as [|[pid status] q]; reflexivity. Qed.

(** An event that is handled changes the job table as the specification
    words it. *)
Lemma spec_reap_event_table ev w w' :
  spec_reap_event ev w = (Ret tt, w') ->
  joblist w' = spec_table_event (joblist w) ev.
Proof.
  unfold spec_reap_event, spec_table_event, bind, getJobWithProcess.
  destruct (JobList.getJobWithProcess (fst ev) (joblist w)) as [[n j]|] eqn:G;
    [|discriminate].
  destruct (spec_state (snd ev)) as [s|]; [|discriminate]. cbn [fst].
  unfold process_setState, bind, the_job.
  rewrite (getJobWithProcess_lookup _ _ _ _ G).
  destruct (JobList.job_getProcess j (fst ev)); [|discriminate].
  unfold synchronize, bind. cbn.
  destruct (JobList.synchronize n _) as [t back].
  destruct back; cbn; [destruct (tc_policy _ _)|];
    intros H; injection H as <-; reflexivity.
Qed.

Lemma spec_reaper_table q : forall w w',
  waitq w = q ->
  spec_reaper q w = (Ret tt, w') ->
  joblist w' = fold_left spec_table_event q (joblist w).
Proof.
  induction q as [|[pid status] q IH]; intros w w' Hq H.
  - unfold spec_reaper in H. cbn [for_each] in H.
    unfold bind, ret, raw_waitpid in H. rewrite Hq in H.
    injection H as <-. reflexivity.
  - rewrite spec_reaper_cons in H.
    destruct (raw_waitpid_next _ _ _ _ Hq) as (w1 & R & Hq1).
    pose proof (raw_waitpid_joblist w) as J. rewrite R in J. cbn [snd] in J.
    apply bind_Ret_inv in H as (a & w1' & R' & H).
    rewrite R in R'. injection R' as <- <-.
    apply bind_Ret_inv in H as ([] & w2 & E & H).
    pose proof (spec_reap_event_waitq (pid, status) w1) as W.
    rewrite E in W. cbn in W.
    rewrite (IH w2 w' ltac:(congruence) H).
    rewrite (spec_reap_event_table _ _ _ E), J. reflexivity.
Qed.

(** What one event does to the job table, read through the lookups of
    the table: the jobs other than the owner are as before; in the owner
    the process of the event has the new state and the others are as
    before; and the owner has left the table only when the event was a
    termination and every other process of the job had terminated. *)
Lemma spec_table_event_effect (t : gmap Z STSHJob) pid status n j s :
  JobList.getJobWithProcess pid t = Some (n, j) ->
  spec_state status = Some s ->
  (forall m, m <> n -> spec_table_event t (pid, status) !! m = t !! m) /\
  match spec_table_event t (pid, status) !! n with
  | Some j' =>
      proc_state <$> JobList.job_getProcess j' pid = Some s /\
      forall q, q <> pid -> JobList.job_getProcess j' q = JobList.job_getProcess j q
  | None =>
      s = kTerminated /\
      forall q p, q <> pid -> JobList.job_getProcess j q = Some p ->
                  proc_state p = kTerminated
  end.
Proof.
  intros G S. unfold spec_table_event. cbn [fst snd]. rewrite G, S.
  pose proof (getJobWithProcess_contains _ _ _ _ G) as C.
  unfold JobList.job_containsProcess in C.
  split.
  - intros m N. rewrite synchronize_other by exact N.
    apply lookup_insert_ne. congruence.
  - pose proof (synchronize_same n (<[n := JobList.job_setProcessState j pid s]> t)
                  (JobList.job_setProcessState j pid s) (lookup_insert_eq _ _ _)) as Y.
    destruct (fst (JobList.synchronize n _) !! n) as [j'|].
    + unfold JobList.job_getProcess. rewrite Y. cbn [JobList.job_setProcessState job_processes].
      split; [exact (set_process_state_hit pid s _ C)|].
      intros q N. apply set_process_state_miss. exact N.
    + unfold JobList.all_terminated in Y.
      cbn [JobList.job_setProcessState job_processes] in Y.
      rewrite forallb_forall in Y.
      assert (T : forall q p,
                 find (fun p => proc_pid p =? q) (JobList.set_process_state pid s (job_processes j))
                 = Some p -> proc_state p = kTerminated).
      { intros q p F. apply find_some in F as [I _].
        apply Y in I. apply bool_decide_eq_true in I. exact I. }
      split.
      * pose proof (set_process_state_hit pid s _ C) as H.
        destruct (find _ _) as [p|] eqn:F; [|discriminate].
        cbn in H. injection H as <-. exact (T pid p F).
      * intros q p N F. apply (T q).
        rewrite set_process_state_miss by exact N. exact F.
Qed.

(** C6: the handler calls the non-blocking [waitpid] once per state change
    waiting to be collected and once more, that last call returning 0 or
    -1; each reported event sets the state of the process in its owning
    job by the table (Terminated on exit, Terminated on death by signal,
    Stopped on stop, Running on continue) and is followed by
    [synchronize] on that job: the handler is the reaper of the
    specification.  When it returns nothing is left to collect, and the
    job table is the one it started from with each event applied in
    turn: after an event the process of that pid is found in the state
    of the table and every other process is found as before, the job
    leaving the table only when all its processes have terminated. *)
Theorem sigchldHandler_is_the_spec_reaper (w : World) :
  Forall (fun ev => 0 < fst ev) (waitq w) ->
  sigchldHandler w = spec_reaper (waitq w) w /\
  (forall status, sigchld_state status = spec_state status) /\
  (forall w', sigchldHandler w = (Ret tt, w') ->
     waitq w' = [] /\ exists r, r <= 0 /\ last (log w') = Some (EWaitpid r 0)) /\
  (forall w', sigchldHandler w = (Ret tt, w') ->
     joblist w' = fold_left spec_table_event (waitq w) (joblist w)) /\
  (forall t pid status n j s,
     JobList.getJobWithProcess pid t = Some (n, j) ->
     spec_state status = Some s ->
     (forall m, m <> n -> spec_table_event t (pid, status) !! m = t !! m) /\
     match spec_table_event t (pid, status) !! n with
     | Some j' =>
         proc_state <$> JobList.job_getProcess j' pid = Some s /\
         forall q, q <> pid -> JobList.job_getProcess j' q = JobList.job_getProcess j q
     | None =>
         s = kTerminated /\
         forall q p, q <> pid -> JobList.job_getProcess j q = Some p ->
                     proc_state p = kTerminated
     end).
Proof.
  intros Hpos. unfold sigchldHandler.
  rewrite (sigchld_loop_spec (waitq w) w eq_refl Hpos).
  split; [reflexivity|]. split; [exact sigchld_state_table|].
  split; [intros w' H; exact (spec_reaper_ends (waitq w) w w' eq_refl H)|].
  split; [intros w' H; exact (spec_reaper_table (waitq w) w w' eq_refl H)|].
  exact spec_table_event_effect.
Qed.

Lemma sigchldHandler_is_the_spec_reaper_witness :
  Forall (fun ev => 0 < fst ev) (waitq storm) /\
  (sigchldHandler storm = spec_reaper (waitq storm) storm /\
   (forall status, sigchld_state status = spec_state status) /\
   (forall w', sigchldHandler storm = (Ret tt, w') ->
      waitq w' = [] /\ exists r, r <= 0 /\ last (log w') = Some (EWaitpid r 0)) /\
   (forall w', sigchldHandler storm = (Ret tt, w') ->
      joblist w' = fold_left spec_table_event (waitq storm) (joblist storm)) /\
   (forall t pid status n j s,
      JobList.getJobWithProcess pid t = Some (n, j) ->
      spec_state status = Some s ->
      (forall m, m <> n -> spec_table_event t (pid, status) !! m = t !! m) /\
      match spec_table_event t (pid, status) !! n with
      | Some j' =>
          proc_state <$> JobList.job_getProcess j' pid = Some s /\
          forall q, q <> pid -> JobList.job_getProcess j' q = JobList.job_getProcess j q
      | None =>
          s = kTerminated /\
          forall q p, q <> pid -> JobList.job_getProcess j q = Some p ->
                      proc_state p = kTerminated
      end)).
Proof.
  split.
  - repeat constructor.
  - apply (sigchldHandler_is_the_spec_reaper storm). repeat constructor.
Defined.

(** The handler on three pending events: 100 continued, 101 killed, 200
    exited; job 2 is removed once its only process has terminated. *)
Example sigchldHandler_storm :
  fst (sigchldHandler storm) = Ret tt /\
  log (snd (sigchldHandler storm))
  = [EWaitpid 100 65535; ESetProcessState 1 100 kRunning; ESynchronize 1;
     EWaitpid 101 9; ESetProcessState 1 101 kTerminated; ESynchronize 1;
     EWaitpid 200 0; ESetProcessState 2 200 kTerminated; ESynchronize 2;
     EWaitpid 0 0] /\
  joblist (snd (sigchldHandler storm)) !! 2 = None /\
  List.map proc_state <$> (job_processes <$> joblist (snd (sigchldHandler storm)) !! 1)
  = Some [kRunning; kTerminated].
Proof. repeat split; vm_compute; reflexivity. Qed.

End Reaper.

(** ** Quiet worlds: the child before [execvp] *)

Section Child.

Lemma emits_app a b w : emits (a ++ b) w = emits b (emits a w).
Proof. apply fold_left_app. Qed.

Lemma emits_fields evs : forall w,
  kernel (emits evs w) = kernel w /\ joblist (emits evs w) = joblist w /\
  sched (emits evs w) = sched w /\ pending (emits evs w) = pending w /\
  log (emits evs w) = log w ++ evs.
Proof.
  induction evs as [|e evs IH]; intros w.
  - cbn. rewrite app_nil_r. repeat split.
  - change (emits (e :: evs) w) with (emits evs (emit e w)).
    destruct (IH (emit e w)) as (K & J & S & P & L).
    rewrite K, J, S, P, L. cbn. rewrite <- app_assoc. repeat split.
Qed.

Lemma quiet_emits evs w : quiet w -> quiet (emits evs w).
Proof.
  intros [S P]. destruct (emits_fields evs w) as (_ & _ & S' & P' & _).
  split; congruence.
Qed.

Lemma tick_quiet w : quiet w -> tick w = (Ret tt, w).
Proof.
  intros [S P]. unfold tick, advance, deliver, bind.
  rewrite S, P. cbn. destruct w; cbn in *; subst; reflexivity.
Qed.

Lemma does_ret : does (ret tt) [].
Proof. intros w _. reflexivity. Qed.

Lemma does_say_tick e : does (say e ;;; tick) [e].
Proof.
  intros w Q. unfold bind, say, modify.
  rewrite tick_quiet; [reflexivity|]. exact (quiet_emits [e] w Q).
Qed.

Lemma does_seq m1 m2 a b : does m1 a -> does m2 b -> does (m1 ;;; m2) (a ++ b).
Proof.
  intros H1 H2 w Q. unfold bind.
  rewrite (H1 w Q), (H2 _ (quiet_emits a w Q)), emits_app. reflexivity.
Qed.

Lemma does_when (b : bool) m a : does m a -> does (when b m) (if b then a else []).
Proof. destruct b; [trivial | intros _; apply does_ret]. Qed.

Lemma does_for_each {A} (l : list A) (f : A -> M unit) (g : A -> list event) :
  (forall a, does (f a) (g a)) -> does (for_each l f) (flat_map g l).
Proof.
  intros H. induction l as [|a l IH]; cbn [for_each flat_map].
  - apply does_ret.
  - apply does_seq; [apply H | exact IH].
Qed.

Lemma does_close fd : does (close fd) [EClose fd].
Proof. apply does_say_tick. Qed.

Lemma does_Dup2 a b : does (Dup2 a b) ([EDup2 a b] ++ [EClose a]).
Proof. apply does_seq; [apply does_say_tick | apply does_close]. Qed.

Lemma does_Close i : does (Close i) ([EClose (fds i 0)] ++ [EClose (fds i 1)]).
Proof. apply does_seq; apply does_close. Qed.

Ltac does_step :=
  lazymatch goal with
  | |- does (Dup2 _ _) _ => apply does_Dup2
  | |- does (Close _) _ => apply does_Close
  | |- does (close _) _ => apply does_close
  | |- does (when _ _) _ => apply does_when
  | |- does (for_each _ _) _ => apply does_for_each; intros
  | |- does (bind _ _) _ => apply does_seq
  end.

(** A program of known effect followed by [k] runs [k] on the extended
    log. *)
Lemma does_then {B} m evs (k : unit -> M B) w :
  does m evs -> quiet w -> bind m k w = k tt (emits evs w).
Proof. intros H Q. unfold bind. rewrite (H w Q). reflexivity. Qed.

Lemma does_first_child p count :
  does (wire_pipes p count 0)
       (((if nonempty (input p) then [EDup2 infd STDIN_FILENO] ++ [EClose infd] else []) ++
         [EClose (fds 0 0)] ++
         ([EDup2 (fds 0 1) STDOUT_FILENO] ++ [EClose (fds 0 1)]) ++
         ([EClose (fds count 0)] ++ [EClose (fds count 1)])) ++
        flat_map (fun j => [EClose (fds j 0)] ++ [EClose (fds j 1)]) (seqZ 1 (count - 2 - 1))).
Proof.
  unfold wire_pipes. change (0 =? 0) with true. cbn iota.
  apply does_seq; [|apply does_for_each, does_Close].
  apply does_seq; [apply does_when, does_Dup2|].
  apply does_seq; [apply does_close|].
  apply does_seq; [apply does_Dup2 | apply does_Close].
Qed.

Lemma quiet_child_world w pid : quiet (child_world w pid).
Proof. split; reflexivity. Qed.

Lemma job_getGroupID_found {B} job j (k : Z -> M B) w :
  joblist w !! job = Some j ->
  bind (job_getGroupID job) k w = k (job_pgid j) w.
Proof.
  intros H. unfold job_getGroupID, the_job, bind, ret. rewrite H. reflexivity.
Qed.

(** The wiring of every child only adds to its log. *)
Lemma does_redirect p count i :
  exists evs,
    does (if count =? 1
          then when (nonempty (input p)) (Dup2 infd STDIN_FILENO) ;;;
               when (nonempty (output p)) (Dup2 outfd STDOUT_FILENO)
          else wire_pipes p count i) evs.
Proof.
  destruct (count =? 1).
  - eexists. repeat does_step.
  - unfold wire_pipes.
    destruct (i =? 0); [|destruct (i =? count - 1)]; eexists; repeat does_step.
Qed.

(** C4, as amended: when [execvp] fails, the child forked by [createJob]
    writes "<command>: Command not found." to stderr and then exits with
    status 0, in the [catch] clause of [main], because its pid is not the
    shell's; it never starts another round of the read-eval-print loop. *)
Theorem failed_exec_child_prints_and_exits_0
    (stshpid : Z) (p : pipeline) (job i pid : Z) (cmd : command) (j : STSHJob) (w : World) :
  joblist w !! job = Some j ->
  program_exists (kernel w) (cmd_command cmd) = false ->
  pid <> stshpid ->
  exists evs w',
    child_round stshpid p job i cmd (child_world w pid) = (Stop (Exit 0), w') /\
    log w' = evs ++ [EExecvp (cmd_command cmd) (cmd_command cmd :: cmd_tokens cmd) (-1);
                     EStderr (cmd_command cmd +:+ ": Command not found.")].
Proof.
  intros Hj Hx Hpid.
  set (cw := child_world w pid).
  pose proof (quiet_child_world w pid) as Q. fold cw in Q.
  unfold child_round, try_catch, after_fork. fold cw.
  change (0 =? 0) with true. cbn iota.
  rewrite (job_getGroupID_found job j _ cw Hj).
  destruct (does_redirect p (Z.of_nat (length (commands p))) i) as [e2 D2].
  rewrite (does_then (setpgid 0 (job_pgid j)) [ESetpgid 0 (job_pgid j)]
              (fun _ =>
                 (if Z.of_nat (length (commands p)) =? 1
                  then when (nonempty (input p)) (Dup2 infd STDIN_FILENO) ;;;
                       when (nonempty (output p)) (Dup2 outfd STDOUT_FILENO)
                  else wire_pipes p (Z.of_nat (length (commands p))) i) ;;;
                 r <- execvp (cmd_command cmd) (cmd_command cmd :: cmd_tokens cmd) ;;
                 when (r <? 0) (throw (cmd_command cmd +:+ ": Command not found.")))
              cw (does_say_tick _) Q).
  pose proof (quiet_emits [ESetpgid 0 (job_pgid j)] cw Q) as Q1.
  rewrite (does_then _ e2
              (fun _ =>
                 r <- execvp (cmd_command cmd) (cmd_command cmd :: cmd_tokens cmd) ;;
                 when (r <? 0) (throw (cmd_command cmd +:+ ": Command not found.")))
              (emits [ESetpgid 0 (job_pgid j)] cw) D2 Q1).
  rewrite <- emits_app.
  destruct (emits_fields ([ESetpgid 0 (job_pgid j)] ++ e2) cw) as (K & _ & _ & _ & L).
  exists ([ESetpgid 0 (job_pgid j)] ++ e2).
  remember (emits ([ESetpgid 0 (job_pgid j)] ++ e2) cw) as cw' eqn:Hcw'.
  eexists. split.
  - unfold bind at 1. unfold execvp. rewrite K.
    change (program_exists (kernel cw)) with (program_exists (kernel w)).
    rewrite Hx. cbn. rewrite K. cbn.
    destruct (Z.eqb_spec pid stshpid) as [?|_]; [contradiction|].
    reflexivity.
  - cbn. rewrite L. cbn. rewrite <- app_assoc. reflexivity.
Qed.

Lemma failed_exec_child_prints_and_exits_0_witness :
  (joblist launching !! 1 = Some (mkJob 1 0 kForeground []) /\
   program_exists (kernel launching) "nosuchprog" = false /\
   2001 <> stshpid) /\
  exists evs w',
    child_round stshpid (line "nosuchprog" []) 1 0 (mkCommand "nosuchprog" [])
      (child_world launching 2001) = (Stop (Exit 0), w') /\
    log w' = evs ++ [EExecvp "nosuchprog" ["nosuchprog"] (-1);
                     EStderr "nosuchprog: Command not found."].
Proof.
  split.
  - split; [vm_compute; reflexivity|]. split; [vm_compute; reflexivity|]. 
    unfold stshpid. lia.
  - apply (failed_exec_child_prints_and_exits_0 stshpid (line "nosuchprog" []) 1 0 2001
             (mkCommand "nosuchprog" []) (mkJob 1 0 kForeground []) launching).
    + vm_compute; reflexivity.
    + vm_compute; reflexivity.
    + unfold stshpid. lia.
Defined.

(** C4, as stated, fails: the child of [nosuchprog] prints its diagnostic
    and exits with status 0, not with a non-zero status. *)
Lemma failed_exec_child_exit_status_is_not_nonzero :
  program_exists session "nosuchprog" = false /\
  fst (child (line "nosuchprog" []) 1 0 2001 launching) = Stop (Exit 0) /\
  log (snd (child (line "nosuchprog" []) 1 0 2001 launching))
  = [ESetpgid 0 0; EExecvp "nosuchprog" ["nosuchprog"] (-1);
     EStderr "nosuchprog: Command not found."] /\
  ~ (exists status, status <> 0 /\
       fst (child (line "nosuchprog" []) 1 0 2001 launching) = Stop (Exit status)).
Proof.
  split; [vm_compute; reflexivity|].
  split; [vm_compute; reflexivity|].
  split; [vm_compute; reflexivity|].
  intros (status & Hne & H).
  assert (E : fst (child (line "nosuchprog" []) 1 0 2001 launching) = Stop (Exit 0))
    by (vm_compute; reflexivity).
  rewrite E in H. injection H as H. congruence.
Qed.

(** C8 (the code departs from the claim): in a pipeline of [count >= 2]
    commands the first child closes both ends of [fds[count]], an index
    past the [count - 1] pipes and past the array itself; when
    [count >= 3] it closes neither end of pipe [count - 2]. *)
Theorem first_child_closes_past_the_pipes (p : pipeline) (count : Z) (w : World) :
  quiet w -> 2 <= count ->
  exists evs,
    wire_pipes p count 0 w = (Ret tt, emits evs w) /\
    In (EClose (fds count 0)) evs /\ In (EClose (fds count 1)) evs /\
    (3 <= count ->
     ~ In (EClose (fds (count - 2) 0)) evs /\ ~ In (EClose (fds (count - 2) 1)) evs).
Proof.
  intros Q Hc. eexists. split; [exact (does_first_child p count w Q)|].
  assert (N : forall e, 3 <= count ->
     ~ In (EClose (fds (count - 2) e))
          (flat_map (fun j => [EClose (fds j 0)] ++ [EClose (fds j 1)])
                    (seqZ 1 (count - 2 - 1)))).
  { intros e H3 H. apply in_flat_map in H as (j & Hj & H).
    apply list_elem_of_In, elem_of_seqZ in Hj.
    cbn in H. destruct H as [H|[H|[]]]; injection H as E; lia. }
  split; [|split; [|intros H3; split]].
  - apply in_or_app. left. apply in_or_app. right. cbn. tauto.
  - apply in_or_app. left. apply in_or_app. right. cbn. tauto.
  - intros H. apply in_app_or in H as [H|H]; [|exact (N 0 H3 H)].
    apply in_app_or in H as [H|H].
    + destruct (nonempty (input p)); cbn in H; intuition discriminate.
    + cbn in H.
      repeat (destruct H as [H|H]; [first [discriminate | injection H; intros; lia]|]).
      exact H.
  - intros H. apply in_app_or in H as [H|H]; [|exact (N 1 H3 H)].
    apply in_app_or in H as [H|H].
    + destruct (nonempty (input p)); cbn in H; intuition discriminate.
    + cbn in H.
      repeat (destruct H as [H|H]; [first [discriminate | injection H; intros; lia]|]).
      exact H.
Qed.

Lemma first_child_closes_past_the_pipes_witness :
  (quiet (child_world launching 2001) /\ 2 <= 3) /\
  exists evs,
    wire_pipes (pipe_line ["cat"; "cat"; "wc"]) 3 0 (child_world launching 2001)
    = (Ret tt, emits evs (child_world launching 2001)) /\
    In (EClose (fds 3 0)) evs /\ In (EClose (fds 3 1)) evs /\
    (3 <= 3 ->
     ~ In (EClose (fds (3 - 2) 0)) evs /\ ~ In (EClose (fds (3 - 2) 1)) evs).
Proof.
  split.
  - split; [apply quiet_child_world | lia].
  - apply (first_child_closes_past_the_pipes (pipe_line ["cat"; "cat"; "wc"]) 3
             (child_world launching 2001)); [apply quiet_child_world | lia].
Defined.

(** The first child of [cat | wc] and of [cat | cat | wc], run up to
    [execvp]. *)
Example child_pipe_cleanup_traces :
  log (snd (child (pipe_line ["cat"; "wc"]) 1 0 2001 launching))
  = [ESetpgid 0 0; EClose (fds 0 0); EDup2 (fds 0 1) STDOUT_FILENO; EClose (fds 0 1);
     EClose (fds 2 0); EClose (fds 2 1)] /\
  log (snd (child (pipe_line ["cat"; "cat"; "wc"]) 1 0 2001 launching))
  = [ESetpgid 0 0; EClose (fds 0 0); EDup2 (fds 0 1) STDOUT_FILENO; EClose (fds 0 1);
     EClose (fds 3 0); EClose (fds 3 1)] /\
  fst (child (pipe_line ["cat"; "cat"; "wc"]) 1 0 2001 launching) = Stop (Exec "cat" ["cat"]).
Proof. repeat split; vm_compute; reflexivity. Qed.


End Child.

(** ** Who holds the terminal *)

Section TerminalInvariant.

Variable Inv : World -> Prop.

(** [Inv] speaks of the kernel's constants, the terminal and the log only;
    it survives log entries other than [tcsetpgrp] and a [tcsetpgrp] for
    the shell's own group. *)
Hypothesis Inv_frame : forall w w',
  kernel w' = kernel w -> tty_pgrp w' = tty_pgrp w -> log w' = log w ->
  Inv w -> Inv w'.
Hypothesis Inv_emit : forall e w,
  (forall g r, e <> ETcsetpgrp g r) -> Inv w -> Inv (emit e w).
Hypothesis Inv_home : forall w,
  Inv w -> Inv (snd (raw_tcsetpgrp (shell_pgid (kernel w)) w)).

Lemma keeps_bind {A B} (m : M A) (f : A -> M B) :
  keeps Inv m -> (forall a, keeps Inv (f a)) -> keeps Inv (bind m f).
Proof.
  intros Hm Hf w I. unfold bind. specialize (Hm w I).
  destruct (m w) as [[a|s] w1]; cbn in Hm |- *; [apply Hf, Hm | exact Hm].
Qed.

Lemma keeps_same {A} (m : M A) : (forall w, snd (m w) = w) -> keeps Inv m.
Proof. intros H w I. rewrite H. exact I. Qed.

Lemma keeps_ret {A} (a : A) : keeps Inv (ret a).
Proof. apply keeps_same. reflexivity. Qed.

Lemma keeps_halt {A} s : keeps Inv (@halt_with A s).
Proof. apply keeps_same. reflexivity. Qed.

Lemma keeps_get {A} (f : World -> A) : keeps Inv (get f).
Proof. apply keeps_same. reflexivity. Qed.

Lemma keeps_modify (f : World -> World) :
  (forall w, kernel (f w) = kernel w /\ tty_pgrp (f w) = tty_pgrp w /\ log (f w) = log w) ->
  keeps Inv (modify f).
Proof. intros H w I. destruct (H w) as (K & T & L). exact (Inv_frame w (f w) K T L I). Qed.

Lemma keeps_say e : (forall g r, e <> ETcsetpgrp g r) -> keeps Inv (say e).
Proof. intros H w I. exact (Inv_emit e w H I). Qed.

Lemma keeps_when b m : keeps Inv m -> keeps Inv (when b m).
Proof. destruct b; [trivial | intros _; apply keeps_ret]. Qed.

Lemma keeps_for_each {A} (l : list A) (f : A -> M unit) :
  (forall a, keeps Inv (f a)) -> keeps Inv (for_each l f).
Proof.
  intros H. induction l as [|a l IH]; cbn [for_each].
  - apply keeps_ret.
  - apply keeps_bind; [apply H | intros _; exact IH].
Qed.

Ltac keeps_step :=
  lazymatch goal with
  | |- keeps _ (ret _) => apply keeps_ret
  | |- keeps _ (halt_with _) => apply keeps_halt
  | |- keeps _ (throw _) => apply keeps_halt
  | |- keeps _ (not_found _) => apply keeps_halt
  | |- keeps _ (get _) => apply keeps_get
  | |- keeps _ (say _) => apply keeps_say; intros ? ?; discriminate
  | |- keeps _ (modify _) => apply keeps_modify; intros; repeat split
  | |- keeps _ (when _ _) => apply keeps_when
  | |- keeps _ (for_each _ _) => apply keeps_for_each; intros
  | |- keeps _ (bind _ _) => apply keeps_bind; [|intros]
  end.

Lemma keeps_raw_kill pid sig : keeps Inv (raw_kill pid sig).
Proof. unfold raw_kill. cbv zeta. repeat keeps_step. Qed.

Lemma keeps_raw_waitpid : keeps Inv raw_waitpid.
Proof.
  intros w I. unfold raw_waitpid. destruct (waitq w) as [|[pid status] q]; cbn.
  - apply Inv_emit; [discriminate | exact I].
  - apply Inv_emit; [discriminate|]. revert I. apply Inv_frame; reflexivity.
Qed.

Lemma keeps_getJob n : keeps Inv (getJob n).
Proof. apply keeps_same. intros w. unfold getJob. destruct (_ !! _); reflexivity. Qed.

Lemma keeps_the_job n : keeps Inv (the_job n).
Proof. apply keeps_same. intros w. unfold the_job. destruct (_ !! _); reflexivity. Qed.

Lemma keeps_getJobWithProcess pid : keeps Inv (getJobWithProcess pid).
Proof.
  apply keeps_same. intros w. unfold getJobWithProcess.
  destruct (JobList.getJobWithProcess _ _); reflexivity.
Qed.

Lemma keeps_getForegroundJob : keeps Inv getForegroundJob.
Proof.
  apply keeps_same. intros w. unfold getForegroundJob.
  destruct (JobList.getForegroundJob _); reflexivity.
Qed.

Lemma keeps_update_job n f : keeps Inv (update_job n f).
Proof. unfold update_job. apply keeps_bind; [apply keeps_the_job|]. intros. keeps_step. Qed.

Lemma keeps_job_setState n s : keeps Inv (job_setState n s).
Proof. unfold job_setState. apply keeps_bind; [apply keeps_update_job|]. intros. keeps_step. Qed.

Lemma keeps_process_setState n pid s : keeps Inv (process_setState n pid s).
Proof.
  unfold process_setState. apply keeps_bind; [apply keeps_the_job|]. intros j.
  destruct (JobList.job_getProcess j pid); repeat keeps_step.
Qed.

Lemma keeps_synchronize n : keeps Inv (synchronize n).
Proof.
  intros w I. unfold synchronize, bind.
  destruct (JobList.synchronize n (joblist w)) as [t back].
  assert (I1 : Inv (emit (ESynchronize n) (set_joblist (fun _ => t) w))).
  { apply Inv_emit; [discriminate|]. revert I. apply Inv_frame; reflexivity. }
  destruct back; cbn [when]; [|exact I1].
  unfold getpgid_self, get.
  specialize (Inv_home _ I1).
  destruct (raw_tcsetpgrp _ _) as [[?|?] ?] eqn:E; cbn in Inv_home |- *; exact Inv_home.
Qed.

Lemma keeps_sigchld_loop fuel : keeps Inv (sigchld_loop fuel).
Proof.
  induction fuel as [|fuel IH]; cbn [sigchld_loop]; [apply keeps_halt|].
  apply keeps_bind; [apply keeps_raw_waitpid|]. intros [pid status].
  destruct (pid <=? 0); [apply keeps_ret|].
  apply keeps_bind; [apply keeps_getJobWithProcess|]. intros [job j].
  apply keeps_bind; [destruct (JobList.job_containsProcess j pid); keeps_step|]. intros _.
  apply keeps_bind;
    [destruct (sigchld_state status); [apply keeps_process_setState | apply keeps_halt]|].
  intros _. apply keeps_bind; [apply keeps_synchronize | intros _; exact IH].
Qed.

Lemma keeps_sigchldHandler : keeps Inv sigchldHandler.
Proof. intros w. apply keeps_sigchld_loop. Qed.

Lemma keeps_forward sig : keeps Inv (forward_to_foreground sig).
Proof.
  unfold forward_to_foreground, hasForegroundJob.
  apply keeps_bind; [apply keeps_get|]. intros fg. apply keeps_when.
  apply keeps_bind; [apply keeps_getForegroundJob|]. intros nj.
  apply keeps_for_each. intros process.
  apply keeps_bind; [apply keeps_raw_kill | intros; apply keeps_ret].
Qed.

Lemma keeps_handler sig handler :
  installSignalHandlers sig = Some handler -> keeps Inv handler.
Proof.
  destruct sig; cbn; intros H; inversion H; subst;
    first [apply keeps_halt | apply keeps_sigchldHandler | apply keeps_forward].
Qed.

Lemma keeps_deliver_each sigs : keeps Inv (deliver_each sigs).
Proof.
  induction sigs as [|s r IH]; cbn [deliver_each]; [apply keeps_ret|].
  destruct (installSignalHandlers s) as [handler|] eqn:E; [|exact IH].
  apply keeps_bind; [keeps_step|]. intros _.
  apply keeps_bind; [exact (keeps_handler s handler E)|]. intros _.
  apply keeps_bind; [keeps_step|]. intros _.
  apply keeps_bind; [exact IH | intros; apply keeps_ret].
Qed.

Lemma keeps_deliver : keeps Inv deliver.
Proof.
  intros w I. unfold deliver. apply keeps_deliver_each.
  revert I. apply Inv_frame; reflexivity.
Qed.

Lemma happen_frame w h :
  kernel (happen w h) = kernel w /\ tty_pgrp (happen w h) = tty_pgrp w /\
  log (happen w h) = log w.
Proof. destruct h; cbn; [destruct (bool_decide _)|]; repeat split. Qed.

Lemma keeps_advance : keeps Inv advance.
Proof.
  intros w I. unfold advance. destruct (sched w) as [|hs rest]; [exact I|]. cbn.
  assert (I1 : Inv (set_sched rest w)) by (revert I; apply Inv_frame; reflexivity).
  revert I1. generalize (set_sched rest w). clear w I.
  induction hs as [|h hs IH]; intros w I; cbn; [exact I|].
  apply IH. destruct (happen_frame w h) as (K & T & L).
  exact (Inv_frame w _ K T L I).
Qed.

Lemma keeps_tick : keeps Inv tick.
Proof.
  unfold tick. apply keeps_bind; [apply keeps_advance|]. intros _.
  apply keeps_bind; [apply keeps_deliver | intros; apply keeps_ret].
Qed.

Lemma keeps_kill pid sig : keeps Inv (kill pid sig).
Proof.
  unfold kill. apply keeps_bind; [apply keeps_raw_kill|]. intros.
  apply keeps_bind; [apply keeps_tick | intros; apply keeps_ret].
Qed.

Lemma keeps_sigprocmask h set : keeps Inv (sigprocmask h set).
Proof.
  unfold sigprocmask. apply keeps_bind; [apply keeps_get|]. intros.
  apply keeps_bind; [keeps_step|]. intros.
  apply keeps_bind; [keeps_step|]. intros.
  apply keeps_bind; [apply keeps_tick | intros; apply keeps_ret].
Qed.

Lemma keeps_suspend fuel : keeps Inv (suspend fuel).
Proof.
  induction fuel as [|fuel IH]; cbn [suspend]; [apply keeps_halt|].
  apply keeps_bind; [apply keeps_deliver|]. intros ran.
  destruct ran; [apply keeps_ret|].
  intros w I. destruct (sched w) eqn:E; [exact I|].
  apply (keeps_bind advance (fun _ => suspend fuel)); [apply keeps_advance | intros; exact IH | exact I].
Qed.

Lemma keeps_sigsuspend mask : keeps Inv (sigsuspend mask).
Proof.
  unfold sigsuspend. apply keeps_bind; [keeps_step|]. intros.
  apply keeps_bind; [apply keeps_get|]. intros.
  apply keeps_bind; [keeps_step|]. intros.
  apply keeps_bind; [apply keeps_get|]. intros.
  apply keeps_bind; [apply keeps_suspend|]. intros. keeps_step.
Qed.

Lemma keeps_wait_foreground fuel existing : keeps Inv (wait_foreground fuel existing).
Proof.
  induction fuel as [|fuel IH]; cbn [wait_foreground]; [apply keeps_halt|].
  apply keeps_bind; [apply keeps_get|]. intros fg.
  destruct fg; [|apply keeps_ret].
  apply keeps_bind; [apply keeps_sigsuspend | intros; exact IH].
Qed.

Lemma keeps_fgBuiltin fuel p index : keeps Inv (fgBuiltin fuel p index).
Proof.
  unfold fgBuiltin. destruct (token p 0) as [first|]; [|apply keeps_halt].
  destruct (bad_number first); [apply keeps_halt|].
  apply keeps_bind; [apply keeps_get|]. intros known.
  destruct known; cbn [negb]; [|apply keeps_halt].
  apply keeps_bind; [unfold job_getProcesses; apply keeps_bind;
                      [apply keeps_the_job | intros; apply keeps_ret]|].
  intros processes.
  apply keeps_bind; [apply keeps_sigprocmask|]. intros existing.
  apply keeps_bind.
  { apply keeps_for_each. intros process.
    apply keeps_bind; [apply keeps_kill|]. intros r.
    apply keeps_when, keeps_job_setState. }
  intros _. apply keeps_bind; [apply keeps_synchronize|]. intros _.
  apply keeps_bind; [apply keeps_wait_foreground|]. intros _.
  apply keeps_bind; [apply keeps_sigprocmask | intros; apply keeps_ret].
Qed.

(** The launch path also gives the terminal to a job; it keeps an
    invariant that survives [tcsetpgrp] for any group. *)
Section Launch.

Hypothesis Inv_tc : forall g w, Inv w -> Inv (snd (raw_tcsetpgrp g w)).

Lemma keeps_sys_say e : (forall g r, e <> ETcsetpgrp g r) -> keeps Inv (say e ;;; tick).
Proof. intros H. apply keeps_bind; [apply keeps_say, H | intros; apply keeps_tick]. Qed.

Lemma keeps_close fd : keeps Inv (close fd).
Proof. apply keeps_sys_say. discriminate. Qed.

Lemma keeps_Dup2 a b : keeps Inv (Dup2 a b).
Proof.
  apply keeps_bind; [apply keeps_sys_say; discriminate | intros; apply keeps_close].
Qed.

Lemma keeps_Close i : keeps Inv (Close i).
Proof. apply keeps_bind; [apply keeps_close | intros; apply keeps_close]. Qed.

Lemma keeps_wire_pipes p count i : keeps Inv (wire_pipes p count i).
Proof.
  unfold wire_pipes.
  apply keeps_bind; [|intros; apply keeps_for_each; intros; apply keeps_Close].
  destruct (i =? 0); [|destruct (i =? count - 1)];
    repeat first [ apply keeps_Dup2 | apply keeps_Close | apply keeps_close
                 | keeps_step ].
Qed.

Lemma keeps_fork : keeps Inv fork.
Proof.
  unfold fork. apply keeps_bind.
  - intros w I. unfold raw_fork. destruct (fork_results w); cbn.
    + apply Inv_emit; [discriminate | exact I].
    + apply Inv_emit; [discriminate|]. revert I. apply Inv_frame; reflexivity.
  - intros. apply keeps_bind; [apply keeps_tick | intros; apply keeps_ret].
Qed.

Lemma keeps_setpgid pid pgid : keeps Inv (setpgid pid pgid).
Proof. apply keeps_sys_say. discriminate. Qed.

Lemma keeps_job_getGroupID n : keeps Inv (job_getGroupID n).
Proof.
  unfold job_getGroupID. apply keeps_bind; [apply keeps_the_job | intros; apply keeps_ret].
Qed.

Lemma keeps_job_getProcesses n : keeps Inv (job_getProcesses n).
Proof.
  unfold job_getProcesses. apply keeps_bind; [apply keeps_the_job | intros; apply keeps_ret].
Qed.

Lemma keeps_execvp file argv : keeps Inv (execvp file argv).
Proof.
  intros w I. unfold execvp. destruct (program_exists _ _); cbn; [exact I|].
  apply Inv_emit; [discriminate | exact I].
Qed.

Lemma keeps_after_fork p job count i cmd pid : keeps Inv (after_fork p job count i cmd pid).
Proof.
  unfold after_fork. destruct (pid =? 0).
  - apply keeps_bind; [apply keeps_job_getGroupID|]. intros gid.
    apply keeps_bind; [apply keeps_setpgid|]. intros _.
    apply keeps_bind.
    { destruct (count =? 1); [|apply keeps_wire_pipes].
      apply keeps_bind; [apply keeps_when, keeps_Dup2 | intros; apply keeps_when, keeps_Dup2]. }
    intros _. cbv zeta.
    apply keeps_bind; [apply keeps_execvp | intros; apply keeps_when, keeps_halt].
  - apply keeps_bind.
    { unfold job_addProcess. apply keeps_bind; [apply keeps_update_job | intros; keeps_step]. }
    intros _. apply keeps_bind; [apply keeps_job_getGroupID | intros; apply keeps_setpgid].
Qed.

Lemma keeps_open path flag : keeps Inv (open path flag).
Proof.
  unfold open. apply keeps_bind; [apply keeps_get|]. intros ok.
  apply keeps_bind; [keeps_step|]. intros _.
  apply keeps_bind; [apply keeps_tick | intros; apply keeps_ret].
Qed.

Lemma keeps_addJob s : keeps Inv (addJob s).
Proof.
  intros w I. unfold addJob. destruct (JobList.addJob s (joblist w)) as [n t]. cbn.
  apply Inv_emit; [discriminate|]. revert I. apply Inv_frame; reflexivity.
Qed.

Lemma keeps_printBG job : keeps Inv (printBG job).
Proof.
  unfold printBG. apply keeps_bind; [apply keeps_job_getProcesses|]. intros.
  unfold cout. keeps_step.
Qed.

Lemma keeps_tcsetpgrp g : keeps Inv (tcsetpgrp g).
Proof.
  unfold tcsetpgrp. apply keeps_bind; [exact (Inv_tc g)|]. intros r.
  apply keeps_bind; [apply keeps_tick | intros; apply keeps_ret].
Qed.

Lemma keeps_authority_check r : keeps Inv (authority_check r).
Proof. destruct r; cbn; first [apply keeps_ret | apply keeps_halt]. Qed.

Lemma keeps_createJob_launch p : keeps Inv (createJob_launch p).
Proof.
  unfold createJob_launch. cbv zeta.
  apply keeps_bind; [apply keeps_addJob|]. intros job.
  apply keeps_bind.
  { apply keeps_when, keeps_bind; [apply keeps_open | intros; apply keeps_ret]. }
  intros _. apply keeps_bind.
  { apply keeps_when, keeps_bind; [apply keeps_open|]. intros ok.
    apply keeps_when, keeps_bind; [apply keeps_open | intros; apply keeps_ret]. }
  intros _. apply keeps_bind.
  { apply keeps_for_each. intros i. apply keeps_sys_say. discriminate. }
  intros _. apply keeps_bind.
  { apply keeps_for_each. intros ic.
    apply keeps_bind; [apply keeps_fork | intros; apply keeps_after_fork]. }
  intros _. apply keeps_bind; [apply keeps_for_each; intros; apply keeps_Close|].
  intros _. apply keeps_bind; [apply keeps_when, keeps_printBG|].
  intros _. apply keeps_bind; [apply keeps_get|]. intros fg.
  apply keeps_bind.
  { apply keeps_when, keeps_bind; [apply keeps_job_getGroupID|]. intros gid.
    apply keeps_bind; [apply keeps_tcsetpgrp | intros; apply keeps_authority_check]. }
  intros _. apply keeps_bind; [apply keeps_get|]. intros own.
  apply keeps_bind; [apply keeps_tcsetpgrp|]. intros r.
  apply keeps_bind; [apply keeps_authority_check|]. intros _.
  apply keeps_bind; [apply keeps_sigprocmask | intros; apply keeps_ret].
Qed.

End Launch.

End TerminalInvariant.

Lemma raw_tcsetpgrp_fields g w :
  kernel (snd (raw_tcsetpgrp g w)) = kernel w /\
  log (snd (raw_tcsetpgrp g w)) = log w ++ [ETcsetpgrp g (tc_policy (kernel w) g)] /\
  tty_pgrp (snd (raw_tcsetpgrp g w))
  = match tc_policy (kernel w) g with TcOk => g | _ => tty_pgrp w end.
Proof. unfold raw_tcsetpgrp. cbn. destruct (tc_policy (kernel w) g); repeat split. Qed.

Lemma kernel_is_frame K w w' :
  kernel w' = kernel w -> tty_pgrp w' = tty_pgrp w -> log w' = log w ->
  kernel_is K w -> kernel_is K w'.
Proof. unfold kernel_is. congruence. Qed.

Lemma kernel_is_emit K e w :
  (forall g r, e <> ETcsetpgrp g r) -> kernel_is K w -> kernel_is K (emit e w).
Proof. intros _ H. exact H. Qed.

Lemma kernel_is_tc K g w : kernel_is K w -> kernel_is K (snd (raw_tcsetpgrp g w)).
Proof. unfold kernel_is. destruct (raw_tcsetpgrp_fields g w) as (E & _). congruence. Qed.

Lemma at_home_frame w w' :
  kernel w' = kernel w -> tty_pgrp w' = tty_pgrp w -> log w' = log w ->
  terminal_at_home w -> terminal_at_home w'.
Proof. unfold terminal_at_home. congruence. Qed.

Lemma at_home_emit e w :
  (forall g r, e <> ETcsetpgrp g r) -> terminal_at_home w -> terminal_at_home (emit e w).
Proof. intros _ H. exact H. Qed.

Lemma at_home_home w :
  terminal_at_home w ->
  terminal_at_home (snd (raw_tcsetpgrp (shell_pgid (kernel w)) w)).
Proof.
  unfold terminal_at_home. intros H.
  destruct (raw_tcsetpgrp_fields (shell_pgid (kernel w)) w) as (K & _ & T).
  rewrite K, T. destruct (tc_policy _ _); congruence.
Qed.

Lemma holds_frame w w' :
  kernel w' = kernel w -> tty_pgrp w' = tty_pgrp w -> log w' = log w ->
  shell_holds_terminal w -> shell_holds_terminal w'.
Proof.
  unfold shell_holds_terminal, terminal_at_home, only_home_calls.
  intros K T L [H1 H2]. rewrite K, T, L. split; assumption.
Qed.

Lemma holds_emit e w :
  (forall g r, e <> ETcsetpgrp g r) ->
  shell_holds_terminal w -> shell_holds_terminal (emit e w).
Proof.
  unfold shell_holds_terminal, terminal_at_home, only_home_calls.
  intros Ne [H1 H2]. split; [exact H1|]. cbn. intros g r H.
  apply in_app_or in H as [H|[H|[]]]; [exact (H2 g r H) | destruct (Ne g r H)].
Qed.

Lemma holds_home w :
  shell_holds_terminal w ->
  shell_holds_terminal (snd (raw_tcsetpgrp (shell_pgid (kernel w)) w)).
Proof.
  intros [H1 H2]. split; [exact (at_home_home w H1)|].
  unfold only_home_calls.
  destruct (raw_tcsetpgrp_fields (shell_pgid (kernel w)) w) as (K & L & _).
  rewrite K, L. intros g r H.
  apply in_app_or in H as [H|[H|[]]]; [exact (H2 g r H) | congruence].
Qed.

Lemma kernel_constant_tick w : kernel (snd (tick w)) = kernel w.
Proof.
  exact (keeps_tick (kernel_is (kernel w)) (kernel_is_frame _) (kernel_is_emit _)
           (fun w0 => kernel_is_tc _ _ w0) w eq_refl).
Qed.

Lemma kernel_constant_createJob_launch p w :
  kernel (snd (createJob_launch p w)) = kernel w.
Proof.
  exact (keeps_createJob_launch (kernel_is (kernel w)) (kernel_is_frame _)
           (kernel_is_emit _) (fun w0 => kernel_is_tc _ _ w0) (kernel_is_tc _) p w eq_refl).
Qed.

Lemma kernel_constant_sigprocmask h set w :
  kernel (snd (sigprocmask h set w)) = kernel w.
Proof.
  exact (keeps_sigprocmask (kernel_is (kernel w)) (kernel_is_frame _) (kernel_is_emit _)
           (fun w0 => kernel_is_tc _ _ w0) h set w eq_refl).
Qed.

(** ** [createJob] and the terminal *)

(** C2 (the code departs from the claim): in a session where the shell
    may take the terminal, whenever [createJob] reaches its wait loop the
    terminal's foreground group is the shell's own group, and it still is
    whenever the loop ends: the terminal is reclaimed before the loop, not
    after it, whatever the pipeline. *)
Theorem createJob_waits_with_the_terminal_at_home
    (p : pipeline) (w : World) (je : Z * list signal) (w' : World) :
  tc_policy (kernel w) (shell_pgid (kernel w)) = TcOk ->
  createJob_launch p w = (Ret je, w') ->
  terminal_at_home w' /\
  forall fuel, terminal_at_home (snd (wait_foreground fuel (snd je) w')).
Proof.
  intros Hpol H.
  cut (terminal_at_home w').
  { intros Hw. split; [exact Hw|]. intros fuel.
    exact (keeps_wait_foreground _ at_home_frame at_home_emit at_home_home
             fuel (snd je) w' Hw). }
  pose proof (kernel_constant_createJob_launch p w) as Kend.
  rewrite H in Kend. cbn in Kend.
  unfold createJob_launch in H. cbv zeta in H.
  do 8 (apply bind_Ret_inv in H as (? & ? & _ & H)).
  apply bind_Ret_inv in H as (? & w0 & _ & H).
  apply bind_Ret_inv in H as (own & wa & Eown & H).
  unfold getpgid_self, get in Eown. injection Eown as <- <-.
  apply bind_Ret_inv in H as (r & wb & Etc & H).
  apply bind_Ret_inv in H as ([] & wc & Eauth & H).
  apply bind_Ret_inv in H as (existing & wd & Emask & H).
  injection H as _ <-.
  (* the terminal call *)
  unfold tcsetpgrp in Etc.
  apply bind_Ret_inv in Etc as (r0 & w1 & Eraw & Etc).
  apply bind_Ret_inv in Etc as ([] & w2 & Etick & Etc).
  injection Etc as <- <-.
  assert (Ec : wc = w2)
    by (destruct r0; cbn in Eauth; unfold ret, throw, halt_with in Eauth; congruence).
  subst wc.
  destruct (raw_tcsetpgrp_fields (shell_pgid (kernel w0)) w0) as (K1 & _ & T1).
  rewrite Eraw in K1, T1. cbn in K1, T1.
  assert (K2 : kernel w2 = kernel w1)
    by (pose proof (kernel_constant_tick w1) as K; rewrite Etick in K; exact K).
  assert (K3 : kernel wd = kernel w2)
    by (pose proof (kernel_constant_sigprocmask SIG_BLOCK [SIGCHLD; SIGINT; SIGTSTP; SIGCONT] w2) as K;
        rewrite Emask in K; exact K).
  assert (Ka : kernel w0 = kernel w) by congruence.
  rewrite Ka, Hpol in T1.
  assert (H1 : terminal_at_home w1) by (unfold terminal_at_home; congruence).
  assert (H2 : terminal_at_home w2).
  { exact (keeps_result terminal_at_home tick w1 _ w2
             (keeps_tick _ at_home_frame at_home_emit at_home_home) H1 Etick). }
  exact (keeps_result terminal_at_home _ w2 _ wd
           (keeps_sigprocmask _ at_home_frame at_home_emit at_home_home _ _) H2 Emask).
Qed.


Lemma createJob_waits_with_the_terminal_at_home_witness :
  (tc_policy (kernel (prompt [2001] [])) (shell_pgid (kernel (prompt [2001] []))) = TcOk /\
   createJob_launch (line "sleep" ["30"]) (prompt [2001] []) = (Ret (1, []), waiting)) /\
  (terminal_at_home waiting /\
   forall fuel, terminal_at_home (snd (wait_foreground fuel (snd (1, [])) waiting))).
Proof.
  split.
  - split; vm_compute; reflexivity.
  - apply (createJob_waits_with_the_terminal_at_home (line "sleep" ["30"])
             (prompt [2001] []) (1, []) waiting); vm_compute; reflexivity.
Defined.

(** The launch of [sleep 30] in the foreground: the terminal is given to
    the job's group 2001 and taken back for the shell's group 1000 before
    the signals are blocked; when the wait starts job 1 is the foreground
    job and the terminal belongs to the shell. *)
Example createJob_sleep_trace :
  let r := createJob_launch (line "sleep" ["30"]) (prompt [2001] []) in
  fst r = Ret (1, []) /\
  log (snd r)
  = [EAddJob 1; EFork 2001; EAddProcess 1 2001; ESetpgid 2001 2001;
     ETcsetpgrp 2001 TcOk; ETcsetpgrp 1000 TcOk;
     ESigprocmask SIG_BLOCK [SIGCHLD; SIGINT; SIGTSTP; SIGCONT]] /\
  JobList.hasForegroundJob (joblist (snd r)) = true /\
  job_pgid <$> (joblist (snd r) !! 1) = Some 2001 /\
  tty_pgrp (snd r) = 1000 /\
  log (snd (createJob 5 (line "sleep" ["30"])
              (prompt [2001] [[]; []; []; []; []; [ChildChange 2001 (WaitStatus.exited 0)]])))
  = [EAddJob 1; EFork 2001; EAddProcess 1 2001; ESetpgid 2001 2001;
     ETcsetpgrp 2001 TcOk; ETcsetpgrp 1000 TcOk;
     ESigprocmask SIG_BLOCK [SIGCHLD; SIGINT; SIGTSTP; SIGCONT];
     ESigsuspend [];
     EHandlerEnter SIGCHLD; EWaitpid 2001 0; ESetProcessState 1 2001 kTerminated;
     ESynchronize 1; EWaitpid (-1) 0; EHandlerReturn SIGCHLD;
     ESigprocmask SIG_UNBLOCK [SIGCHLD; SIGINT; SIGTSTP; SIGCONT]].
Proof. repeat split; vm_compute; reflexivity. Qed.


(** ** [fg] and the terminal *)

(** C5 (the code departs from the claim): [fg] never transfers the
    terminal.  If the shell's group holds the terminal and no other group
    was ever given it, the same is true when [fgBuiltin] ends, whatever
    the job, the happenings during the wait and the way it ends: every
    [tcsetpgrp] call logged is for the shell's own group. *)
Theorem fgBuiltin_keeps_the_terminal_with_the_shell
    (fuel : nat) (p : pipeline) (index : Z) (w : World) :
  shell_holds_terminal w ->
  shell_holds_terminal (snd (fgBuiltin fuel p index w)).
Proof. exact (keeps_fgBuiltin _ holds_frame holds_emit holds_home fuel p index w). Qed.

Lemma fgBuiltin_keeps_the_terminal_with_the_shell_witness :
  shell_holds_terminal (two_jobs [[]; []; [ChildChange 200 (WaitStatus.exited 0)]]) /\
  shell_holds_terminal
    (snd (fgBuiltin 5 (line "fg" ["2"]) 2
            (two_jobs [[]; []; [ChildChange 200 (WaitStatus.exited 0)]]))).
Proof.
  assert (H : shell_holds_terminal
                (two_jobs [[]; []; [ChildChange 200 (WaitStatus.exited 0)]])).
  { split; [reflexivity | intros g r []]. }
  split; [exact H|].
  apply (fgBuiltin_keeps_the_terminal_with_the_shell 5 (line "fg" ["2"]) 2
           (two_jobs [[]; []; [ChildChange 200 (WaitStatus.exited 0)]])).
  exact H.
Defined.

(** [fg 2] continues the process of job 2, makes the job Foreground,
    synchronizes and waits for it without a single [tcsetpgrp]: the
    terminal stays with group 1000 while job 2 (group 200) is in the
    foreground.  For the unknown job 7 the diagnostic is raised and
    nothing changes. *)
Example fgBuiltin_fg_trace :
  let todo := [[]; []; [ChildChange 200 (WaitStatus.exited 0)]] in
  let r := repl_round 5 stshpid (line "fg" ["2"]) (two_jobs todo) in
  fst r = Ret tt /\
  log (snd r)
  = [ESigprocmask SIG_BLOCK [SIGINT; SIGCHLD; SIGTSTP; SIGCONT];
     EKill 200 SIGCONT 0; ESetJobState 2 kForeground; ESynchronize 2;
     ESigsuspend [];
     EHandlerEnter SIGCHLD; EWaitpid 200 0; ESetProcessState 2 200 kTerminated;
     ESynchronize 2; EWaitpid 0 0; EHandlerReturn SIGCHLD;
     ESigprocmask SIG_UNBLOCK [SIGINT; SIGCHLD; SIGTSTP; SIGCONT]] /\
  tty_pgrp (snd r) = 1000 /\
  fgBuiltin 5 (line "fg" ["7"]) 2 (two_jobs [])
  = (Stop (Throw "fg 7:  No such job."), two_jobs []).
Proof. repeat split; vm_compute; reflexivity. Qed.


(** ** [createJob] and the reaper *)

(** C3 (the code departs from the claim): the only [sigprocmask(SIG_BLOCK)]
    of [createJob] comes after the launch loop and after the parent has
    closed its pipes.  In [cat | wc], when the first child is stopped
    (by SIGTTIN, signal 21) as soon as it is in its group, SIGCHLD is
    handled between the first [addProcess] and the second [fork]: the
    reaper changes the job table in the middle of the launch path. *)
Theorem createJob_forks_with_signals_unblocked :
  let stop_early := [[]; []; [ChildChange 2001 (WaitStatus.stopped 21)]] in
  let r := createJob_launch (pipe_line ["cat"; "wc"]) (prompt [2001; 2002] stop_early) in
  fst r = Ret (1, []) /\
  log (snd r)
  = [EAddJob 1; EPipe 0;
     EFork 2001; EAddProcess 1 2001; ESetpgid 2001 2001;
     EHandlerEnter SIGCHLD; EWaitpid 2001 (WaitStatus.stopped 21);
     ESetProcessState 1 2001 kStopped; ESynchronize 1;
     ETcsetpgrp 1000 TcOk; EWaitpid 0 0; EHandlerReturn SIGCHLD;
     EFork 2002; EAddProcess 1 2002; ESetpgid 2002 2001;
     EClose (fds 0 0); EClose (fds 0 1);
     ETcsetpgrp 1000 TcOk;
     ESigprocmask SIG_BLOCK [SIGCHLD; SIGINT; SIGTSTP; SIGCONT]].
Proof. repeat split; vm_compute; reflexivity. Qed.

(** C10 (the code departs from the claim): [nosuchprog] cannot be
    executed, so its child ends at once; when that is reported as [fork]
    returns in the shell, the handler runs before [addProcess] and
    [getJobWithProcess] finds no job for pid 2001.  The failed lookup
    ends the handler and [createJob]; it is reported at the prompt and
    the child is never recorded. *)
Theorem sigchldHandler_can_reap_an_unrecorded_child :
  let w := prompt [2001] [[ChildChange 2001 (WaitStatus.exited 0)]] in
  let r := repl_round 5 stshpid (line "nosuchprog" []) w in
  fst (createJob 5 (line "nosuchprog" []) w)
  = Stop (Throw (lookup_what (JobByProcess 2001))) /\
  fst r = Ret tt /\
  log (snd r) = [EAddJob 1; EFork 2001; EHandlerEnter SIGCHLD; EWaitpid 2001 0;
                 EStderr (lookup_what (JobByProcess 2001))] /\
  JobList.containsProcess 2001 (joblist (snd r)) = false.
Proof. repeat split; vm_compute; reflexivity. Qed.

(** ** Builtins: dispatch and malformed arguments *)

Lemma append_nil (t : string) : "" +:+ t = t.
Proof. reflexivity. Qed.

Lemma append_cons a (s t : string) : String a s +:+ t = String a (s +:+ t).
Proof. reflexivity. Qed.

Lemma digits_rest_nonempty c : CLib.digit c = None ->
  forall s acc, snd (CLib.digits acc (s +:+ String c "")) <> "".
Proof.
  intros H s. induction s as [|a s IH]; intros acc.
  - rewrite append_nil. cbn [CLib.digits]. rewrite H. discriminate.
  - rewrite append_cons. cbn [CLib.digits].
    destruct (CLib.digit a); [apply IH | discriminate].
Qed.

Lemma skip_space_ends c s :
  CLib.skip_space (s +:+ String c "") = "" \/
  exists s', CLib.skip_space (s +:+ String c "") = s' +:+ String c "".
Proof.
  induction s as [|a s IH].
  - rewrite append_nil. cbn [CLib.skip_space].
    destruct (CLib.isspace c); [left; reflexivity | right; exists ""; reflexivity].
  - rewrite append_cons. cbn [CLib.skip_space].
    destruct (CLib.isspace a); [exact IH | right; exists (String a s); reflexivity].
Qed.

Lemma strtol_rest_nonempty c s : CLib.digit c = None ->
  snd (CLib.strtol (s +:+ String c "")) <> "".
Proof.
  intros H. unfold CLib.strtol.
  assert (T : s +:+ String c "" <> "") by (destruct s; discriminate).
  destruct (skip_space_ends c s) as [E|[s' E]]; rewrite E.
  - cbn. exact T.
  - assert (S : forall (neg : bool) (s2 : string),
               (s2 = s' +:+ String c "" \/ exists a, s' +:+ String c "" = String a s2) ->
               snd (if CLib.starts_with_digit s2 then
                      let '(v, rest) := CLib.digits 0 s2 in
                      (CLib.clamp_long (if neg then - v else v), rest)
                    else (0, s +:+ String c "")) <> "").
    { intros neg s2 Hs2. destruct (CLib.starts_with_digit s2) eqn:D; [|exact T].
      assert (exists s'', s2 = s'' +:+ String c "") as [s'' ->].
      { destruct Hs2 as [->|[a Ha]]; [eauto|].
        destruct s' as [|b s']; cbn in Ha.
        - injection Ha as _ <-. discriminate.
        - injection Ha as _ <-. eauto. }
      pose proof (digits_rest_nonempty c H s'' 0) as N.
      destruct (CLib.digits 0 _). exact N. }
    destruct (s' +:+ String c "") as [|a r] eqn:Es1.
    + destruct s'; discriminate.
    + assert (exists neg s2,
                match a with
                | "+"%char => (false, r)
                | "-"%char => (true, r)
                | _ => (false, String a r)
                end = (neg, s2) /\ (s2 = String a r \/ s2 = r)) as (neg & s2 & -> & Hs2).
      { destruct a as [[] [] [] [] [] [] [] []]; eauto. }
      apply S. destruct Hs2 as [->| ->]; eauto.
Qed.

Lemma bad_number_trailing c s : CLib.digit c = None ->
  bad_number (s +:+ String c "") = true.
Proof.
  intros H. unfold bad_number.
  pose proof (strtol_rest_nonempty c s H) as N.
  destruct (CLib.strtol _) as [ret ptr]. cbn in N.
  assert (L : forall t, t <> "" -> (0 <? CLib.strlen t) = true).
  { intros t Ht. destruct t; [contradiction|]. unfold CLib.strlen. cbn [String.length].
    apply Z.ltb_lt. lia. }
  rewrite (L _ N), L; [reflexivity|]. destruct s; discriminate.
Qed.

Lemma isspace_not_digit c : CLib.isspace c = true -> CLib.digit c = None.
Proof. destruct c as [[] [] [] [] [] [] [] []]; vm_compute; congruence. Qed.

Lemma digits_only s : only_digits s = true ->
  forall acc, 0 <= acc -> exists v, CLib.digits acc s = (v, "") /\ 0 <= v.
Proof.
  induction s as [|a s IH]; intros H acc Hacc; cbn [CLib.digits].
  - eauto.
  - cbn [only_digits] in H. apply andb_true_iff in H as [Ha Hs].
    apply bool_decide_eq_true in Ha as [d Hd]. rewrite Hd.
    apply IH; [exact Hs|].
    unfold CLib.digit in Hd.
    destruct (_ && _) eqn:R; [|discriminate]. injection Hd as <-.
    apply andb_true_iff in R as [R _]. apply Z.leb_le in R. lia.
Qed.

Lemma bad_number_digits s : s <> "" -> only_digits s = true -> bad_number s = false.
Proof.
  intros Hne H. destruct s as [|a s]; [contradiction|].
  pose proof (digits_only _ H 0 ltac:(lia)) as (v & Dv & Hv).
  cbn [only_digits] in H. apply andb_true_iff in H as [Ha _].
  apply bool_decide_eq_true in Ha.
  unfold bad_number, CLib.strtol.
  assert (Sp : CLib.skip_space (String a s) = String a s).
  { cbn [CLib.skip_space]. destruct (CLib.isspace a) eqn:I; [|reflexivity].
    rewrite (isspace_not_digit a I) in Ha. destruct Ha; discriminate. }
  rewrite Sp.
  assert (Sg : match a with
               | "+"%char => (false, s)
               | "-"%char => (true, s)
               | _ => (false, String a s)
               end = (false, String a s)).
  { destruct a as [[] [] [] [] [] [] [] []]; try reflexivity;
      exfalso; destruct Ha as [? Ha]; vm_compute in Ha; discriminate. }
  rewrite Sg.
  assert (St : CLib.starts_with_digit (String a s) = true)
    by (apply bool_decide_eq_true; exact Ha).
  rewrite St, Dv.
  cbn [CLib.strlen String.length]. unfold CLib.strlen. cbn [String.length Z.of_nat].
  rewrite andb_false_r. cbn [orb].
  apply Z.ltb_ge. unfold CLib.clamp_long, CLib.LONG_MIN, CLib.LONG_MAX. lia.
Qed.

Lemma token_first p c cs i : commands p = c :: cs -> token p i = cmd_tokens c !! i.
Proof. intros H. unfold token. rewrite H. reflexivity. Qed.

Lemma fgBuiltin_malformed fuel p index w :
  malformed (token p 0) ->
  fgBuiltin fuel p index w = (Stop (Throw "Usage: fg <jobid>."), w).
Proof.
  intros [E|(s & c & E & D)]; unfold fgBuiltin; rewrite E; [reflexivity|].
  rewrite (bad_number_trailing c s D). reflexivity.
Qed.

Lemma bgBuiltin_malformed p index w :
  malformed (token p 0) ->
  bgBuiltin p index w = (Stop (Throw "Usage: bg <jobid>."), w).
Proof.
  intros [E|(s & c & E & D)]; unfold bgBuiltin; rewrite E; [reflexivity|].
  rewrite (bad_number_trailing c s D). reflexivity.
Qed.

Lemma try_catch_in_shell stshpid (body : M unit) what w w' :
  shell_pid (kernel w') = stshpid ->
  body w = (Stop (Throw what), w') ->
  try_catch stshpid body w = (Ret tt, emit (EStderr what) w').
Proof.
  intros P E. unfold try_catch. rewrite E. unfold bind, cerr, say, modify, getpid, get.
  cbn. rewrite P, Z.eqb_refl. reflexivity.
Qed.

(** X2: [fg] and [bg] with no argument, or with an argument whose last
    character is not a decimal digit, print "Usage: fg <jobid>." (resp.
    "Usage: bg <jobid>.") on stderr through the [catch] clause of [main];
    the shell stays alive, sends no signal and leaves the job table and
    the signal mask untouched. *)
Theorem fg_bg_usage_error (fuel : nat) (stshpid : Z) (p : pipeline) (c : command)
    (cs : list command) (w : World) :
  commands p = c :: cs ->
  cmd_command c = "fg" \/ cmd_command c = "bg" ->
  malformed (token p 0) ->
  shell_pid (kernel w) = stshpid ->
  repl_round fuel stshpid p w
  = (Ret tt, emit (EStderr ("Usage: " +:+ cmd_command c +:+ " <jobid>.")) w).
Proof.
  intros Hc Hn Hm Hp. unfold repl_round.
  apply try_catch_in_shell; [exact Hp|].
  unfold handleBuiltin. rewrite Hc.
  destruct Hn as [-> | ->].
  - change (find_builtin "fg" kSupportedBuiltins 0) with (Some 2).
    cbv iota beta. change ((2 =? 0) || (2 =? 1)) with false. change (2 =? 2) with true.
    cbv iota. unfold bind. rewrite (fgBuiltin_malformed fuel p 2 w Hm). reflexivity.
  - change (find_builtin "bg" kSupportedBuiltins 0) with (Some 3).
    cbv iota beta. change ((3 =? 0) || (3 =? 1)) with false. change (3 =? 2) with false.
    change (3 =? 3) with true.
    cbv iota. unfold bind. rewrite (bgBuiltin_malformed p 3 w Hm). reflexivity.
Qed.

Lemma fg_bg_usage_error_witness :
  (commands (line "fg" ["2x"]) = [mkCommand "fg" ["2x"]] /\
   (cmd_command (mkCommand "fg" ["2x"]) = "fg" \/ cmd_command (mkCommand "fg" ["2x"]) = "bg") /\
   malformed (token (line "fg" ["2x"]) 0) /\
   shell_pid (kernel (two_jobs [])) = stshpid) /\
  repl_round 5 stshpid (line "fg" ["2x"]) (two_jobs [])
  = (Ret tt, emit (EStderr ("Usage: " +:+ cmd_command (mkCommand "fg" ["2x"]) +:+ " <jobid>."))
                  (two_jobs [])).
Proof.
  assert (M : malformed (token (line "fg" ["2x"]) 0)).
  { right. exists "2", "x"%char. split; reflexivity. }
  split.
  - split; [reflexivity|]. split; [left; reflexivity|]. split; [exact M | reflexivity].
  - apply (fg_bg_usage_error 5 stshpid (line "fg" ["2x"]) (mkCommand "fg" ["2x"]) []
             (two_jobs [])); [reflexivity | left; reflexivity | exact M | reflexivity].
Defined.

(** X3: [fg n] and [bg n], for a non-empty all-digit [n] that is not the
    number of a job, print "fg <n>:  No such job." (resp. "bg ...", with
    the number as [atoi] read it and two spaces after the colon) on
    stderr and do nothing else. *)
Theorem fg_bg_unknown_job (fuel : nat) (stshpid : Z) (p : pipeline) (c : command)
    (cs : list command) (first : string) (w : World) :
  commands p = c :: cs ->
  cmd_command c = "fg" \/ cmd_command c = "bg" ->
  cmd_tokens c !! 0%nat = Some first ->
  first <> "" -> only_digits first = true ->
  JobList.containsJob (CLib.to_size_t (CLib.atoi first)) (joblist w) = false ->
  shell_pid (kernel w) = stshpid ->
  repl_round fuel stshpid p w
  = (Ret tt, emit (EStderr (cmd_command c +:+ " " +:+ CLib.to_string (CLib.atoi first)
                             +:+ ":  No such job.")) w).
Proof.
  intros Hc Hn Ht Hne Hd Hj Hp. unfold repl_round.
  apply try_catch_in_shell; [exact Hp|].
  pose proof (token_first p c cs 0 Hc) as T. rewrite Ht in T.
  pose proof (bad_number_digits first Hne Hd) as B.
  unfold handleBuiltin. rewrite Hc.
  destruct Hn as [-> | ->].
  - change (find_builtin "fg" kSupportedBuiltins 0) with (Some 2).
    cbv iota beta. change ((2 =? 0) || (2 =? 1)) with false. change (2 =? 2) with true.
    cbv iota. unfold fgBuiltin. rewrite T, B. cbv zeta.
    unfold bind, containsJob, get. rewrite Hj. reflexivity.
  - change (find_builtin "bg" kSupportedBuiltins 0) with (Some 3).
    cbv iota beta. change ((3 =? 0) || (3 =? 1)) with false. change (3 =? 2) with false.
    change (3 =? 3) with true.
    cbv iota. unfold bgBuiltin. rewrite T, B. cbv zeta.
    unfold bind, containsJob, get. rewrite Hj. reflexivity.
Qed.

Lemma fg_bg_unknown_job_witness :
  (commands (line "bg" ["7"]) = [mkCommand "bg" ["7"]] /\
   (cmd_command (mkCommand "bg" ["7"]) = "fg" \/ cmd_command (mkCommand "bg" ["7"]) = "bg") /\
   cmd_tokens (mkCommand "bg" ["7"]) !! 0%nat = Some "7" /\
   "7" <> "" /\ only_digits "7" = true /\
   JobList.containsJob (CLib.to_size_t (CLib.atoi "7")) (joblist (two_jobs [])) = false /\
   shell_pid (kernel (two_jobs [])) = stshpid) /\
  repl_round 5 stshpid (line "bg" ["7"]) (two_jobs [])
  = (Ret tt, emit (EStderr (cmd_command (mkCommand "bg" ["7"]) +:+ " "
                              +:+ CLib.to_string (CLib.atoi "7") +:+ ":  No such job."))
                  (two_jobs [])).
Proof.
  split.
  - split; [reflexivity|]. split; [right; reflexivity|]. split; [reflexivity|].
    split; [discriminate|]. split; [vm_compute; reflexivity|].
    split; vm_compute; reflexivity.
  - apply (fg_bg_unknown_job 5 stshpid (line "bg" ["7"]) (mkCommand "bg" ["7"]) [] "7"
             (two_jobs []));
      [reflexivity | right; reflexivity | reflexivity | discriminate
      | vm_compute; reflexivity | vm_compute; reflexivity | vm_compute; reflexivity].
Defined.

Lemma find_builtin_None command l i :
  find_builtin command l i = None <-> ~ In command l.
Proof.
  revert i. induction l as [|b l IH]; intros i; cbn [find_builtin In].
  - tauto.
  - destruct (bool_decide (b = command)) eqn:E.
    + apply bool_decide_eq_true in E. split; [discriminate | tauto].
    + apply bool_decide_eq_false in E. rewrite IH. tauto.
Qed.

(** X1: [handleBuiltin] answers [false] exactly when the leading command
    is none of the eight names of [kSupportedBuiltins], and then it has
    changed nothing: no system call, no output, the job table as it
    was. *)
Theorem handleBuiltin_false_iff (fuel : nat) (p : pipeline) (c : command)
    (cs : list command) (w : World) :
  commands p = c :: cs ->
  (fst (handleBuiltin fuel p w) = Ret false <-> ~ In (cmd_command c) kSupportedBuiltins) /\
  (~ In (cmd_command c) kSupportedBuiltins -> handleBuiltin fuel p w = (Ret false, w)).
Proof.
  intros Hc. unfold handleBuiltin. rewrite Hc.
  destruct (find_builtin (cmd_command c) kSupportedBuiltins 0) as [index|] eqn:F.
  - assert (N : ~ ~ In (cmd_command c) kSupportedBuiltins).
    { intros N. apply (proj2 (find_builtin_None _ _ 0)) in N. congruence. }
    split; [|tauto]. split; [|tauto].
    unfold bind. destruct (_ w) as [[?|?] ?]; discriminate.
  - apply (proj1 (find_builtin_None _ _ 0)) in F.
    split; [split|]; intros; first [reflexivity | exact F].
Qed.

Lemma handleBuiltin_false_iff_witness :
  commands (line "sleep" ["30"]) = [mkCommand "sleep" ["30"]] /\
  ((fst (handleBuiltin 5 (line "sleep" ["30"]) (two_jobs [])) = Ret false
    <-> ~ In (cmd_command (mkCommand "sleep" ["30"])) kSupportedBuiltins) /\
   (~ In (cmd_command (mkCommand "sleep" ["30"])) kSupportedBuiltins ->
    handleBuiltin 5 (line "sleep" ["30"]) (two_jobs []) = (Ret false, two_jobs []))).
Proof.
  split; [reflexivity|].
  apply (handleBuiltin_false_iff 5 (line "sleep" ["30"]) (mkCommand "sleep" ["30"]) []
           (two_jobs [])).
  reflexivity.
Defined.

(** ** What the handlers and the wait loop preserve *)

(** The goal that a computation which returns, or ends otherwise than in
    an exception, or ends in a failed lookup, throws nothing else. *)
Ltac no_throw :=
  let E := fresh in
  intros ? E;
  first [ discriminate E
        | lazymatch type of E with
          | fst (not_found ?l _) = Stop (Throw ?x) =>
              exists l; cbv [not_found throw halt_with fst] in E;
              injection E as <-; reflexivity
          end ].

Section HandlerInvariant.

Variable Inv : World -> Prop.

(** [Inv] speaks of the job table and the signal mask only, and survives
    what the reaper does to the table. *)
Hypothesis Inv_mem : forall w w',
  joblist w' = joblist w -> blocked w' = blocked w -> Inv w -> Inv w'.
Hypothesis Inv_setProcessState : forall w n j pid s,
  joblist w !! n = Some j -> Inv w ->
  Inv (set_joblist (fun t => <[n := JobList.job_setProcessState j pid s]> t) w).
Hypothesis Inv_synchronize : forall w n,
  Inv w -> Inv (set_joblist (fun _ => fst (JobList.synchronize n (joblist w))) w).

Lemma steady_bind {A B} (m : M A) (f : A -> M B) :
  steady Inv m -> (forall a, steady Inv (f a)) -> steady Inv (bind m f).
Proof.
  intros Hm Hf w I. unfold bind. destruct (Hm w I) as [I1 T1].
  destruct (m w) as [[a|s] w1]; cbn in I1, T1 |- *; [exact (Hf a w1 I1)|].
  split; [exact I1|]. intros what E. apply (T1 what). injection E as ->. reflexivity.
Qed.

Lemma steady_same {A} (m : M A) :
  (forall w, snd (m w) = w /\
             forall what, fst (m w) = Stop (Throw what) -> exists l, what = lookup_what l) ->
  steady Inv m.
Proof. intros H w I. destruct (H w) as [E T]. rewrite E. split; assumption. Qed.

Lemma steady_ret {A} (a : A) : steady Inv (ret a).
Proof. apply steady_same. intros w. split; [reflexivity | no_throw]. Qed.

Lemma steady_get {A} (f : World -> A) : steady Inv (get f).
Proof. apply steady_same. intros w. split; [reflexivity | no_throw]. Qed.

Lemma steady_halt {A} s : (forall what, s <> Throw what) -> steady Inv (@halt_with A s).
Proof.
  intros H. apply steady_same. intros w. split; [reflexivity|].
  intros what E. injection E as E. destruct (H what E).
Qed.

Lemma steady_not_found {A} l : steady Inv (@not_found A l).
Proof. apply steady_same. intros w. split; [reflexivity | no_throw]. Qed.

Lemma steady_modify (f : World -> World) :
  (forall w, joblist (f w) = joblist w /\ blocked (f w) = blocked w) ->
  steady Inv (modify f).
Proof.
  intros H w I. destruct (H w) as (J & B). split; [|no_throw].
  exact (Inv_mem w (f w) J B I).
Qed.

Lemma steady_say e : steady Inv (say e).
Proof. apply steady_modify. intros w. split; reflexivity. Qed.

Lemma steady_when b m : steady Inv m -> steady Inv (when b m).
Proof. destruct b; [trivial | intros _; apply steady_ret]. Qed.

Lemma steady_for_each {A} (l : list A) (f : A -> M unit) :
  (forall a, steady Inv (f a)) -> steady Inv (for_each l f).
Proof.
  intros H. induction l as [|a l IH]; cbn [for_each].
  - apply steady_ret.
  - apply steady_bind; [apply H | intros _; exact IH].
Qed.

Ltac steady_step :=
  lazymatch goal with
  | |- steady _ (ret _) => apply steady_ret
  | |- steady _ (halt_with _) => apply steady_halt; discriminate
  | |- steady _ (not_found _) => apply steady_not_found
  | |- steady _ (get _) => apply steady_get
  | |- steady _ (say _) => apply steady_say
  | |- steady _ (modify _) => apply steady_modify; intros; split; reflexivity
  | |- steady _ (when _ _) => apply steady_when
  | |- steady _ (for_each _ _) => apply steady_for_each; intros
  | |- steady _ (bind _ _) => apply steady_bind; [|intros]
  end.

Lemma steady_raw_kill pid sig : steady Inv (raw_kill pid sig).
Proof. unfold raw_kill. cbv zeta. repeat steady_step. Qed.

Lemma steady_raw_waitpid : steady Inv raw_waitpid.
Proof.
  intros w I. unfold raw_waitpid.
  destruct (waitq w) as [|[pid status] q]; cbn; (split; [|no_throw]);
    revert I; apply Inv_mem; reflexivity.
Qed.

Lemma steady_raw_tcsetpgrp g : steady Inv (raw_tcsetpgrp g).
Proof.
  intros w I. unfold raw_tcsetpgrp. cbn. split; [|no_throw].
  revert I. apply Inv_mem; destruct (tc_policy _ _); reflexivity.
Qed.

Lemma steady_getJob n : steady Inv (getJob n).
Proof.
  apply steady_same. intros w. unfold getJob.
  destruct (_ !! _); split; first [reflexivity | no_throw].
Qed.


Lemma steady_getJobWithProcess pid : steady Inv (getJobWithProcess pid).
Proof.
  apply steady_same. intros w. unfold getJobWithProcess.
  destruct (JobList.getJobWithProcess _ _); split; first [reflexivity | no_throw].
Qed.

Lemma steady_getForegroundJob : steady Inv getForegroundJob.
Proof.
  apply steady_same. intros w. unfold getForegroundJob.
  destruct (JobList.getForegroundJob _); split; first [reflexivity | no_throw].
Qed.

Lemma steady_process_setState n pid s : steady Inv (process_setState n pid s).
Proof.
  intros w I. unfold process_setState, bind, the_job.
  destruct (joblist w !! n) as [j|] eqn:E; [|split; [exact I | no_throw]].
  destruct (JobList.job_getProcess j pid); [|split; [exact I | no_throw]].
  cbn. split; [|no_throw].
  pose proof (Inv_setProcessState w n j pid s E I) as I1.
  revert I1. apply Inv_mem; reflexivity.
Qed.

Lemma steady_synchronize n : steady Inv (synchronize n).
Proof.
  intros w I. unfold synchronize, bind.
  pose proof (Inv_synchronize w n I) as I1.
  destruct (JobList.synchronize n (joblist w)) as [t back]. cbn [fst] in I1.
  assert (I2 : Inv (emit (ESynchronize n) (set_joblist (fun _ => t) w)))
    by (revert I1; apply Inv_mem; reflexivity).
  destruct back; cbn [when]; [|split; [exact I2 | no_throw]].
  unfold getpgid_self, get, raw_tcsetpgrp. cbn. split; [|no_throw].
  revert I2. apply Inv_mem; destruct (tc_policy _ _); reflexivity.
Qed.

Lemma steady_sigchld_loop fuel : steady Inv (sigchld_loop fuel).
Proof.
  induction fuel as [|fuel IH]; cbn [sigchld_loop]; [steady_step|].
  apply steady_bind; [apply steady_raw_waitpid|]. intros [pid status].
  destruct (pid <=? 0); [apply steady_ret|].
  apply steady_bind; [apply steady_getJobWithProcess|]. intros [job j].
  apply steady_bind; [destruct (JobList.job_containsProcess j pid); steady_step|]. intros _.
  apply steady_bind;
    [destruct (sigchld_state status); [apply steady_process_setState | steady_step]|].
  intros _. apply steady_bind; [apply steady_synchronize | intros _; exact IH].
Qed.

Lemma steady_sigchldHandler : steady Inv sigchldHandler.
Proof. intros w. apply steady_sigchld_loop. Qed.

Lemma steady_forward sig : steady Inv (forward_to_foreground sig).
Proof.
  unfold forward_to_foreground, hasForegroundJob.
  apply steady_bind; [apply steady_get|]. intros fg. apply steady_when.
  apply steady_bind; [apply steady_getForegroundJob|]. intros nj.
  apply steady_for_each. intros process.
  apply steady_bind; [apply steady_raw_kill | intros; apply steady_ret].
Qed.

Lemma steady_handler sig handler :
  installSignalHandlers sig = Some handler -> steady Inv handler.
Proof.
  destruct sig; cbn; intros H; inversion H; subst;
    first [ apply steady_halt; discriminate
          | apply steady_sigchldHandler | apply steady_forward ].
Qed.

Lemma steady_deliver_each sigs : steady Inv (deliver_each sigs).
Proof.
  induction sigs as [|s r IH]; cbn [deliver_each]; [apply steady_ret|].
  destruct (installSignalHandlers s) as [handler|] eqn:E; [|exact IH].
  apply steady_bind; [steady_step|]. intros _.
  apply steady_bind; [exact (steady_handler s handler E)|]. intros _.
  apply steady_bind; [steady_step|]. intros _.
  apply steady_bind; [exact IH | intros; apply steady_ret].
Qed.

Lemma steady_deliver : steady Inv deliver.
Proof.
  intros w I. unfold deliver. apply steady_deliver_each.
  revert I. apply Inv_mem; reflexivity.
Qed.

Lemma happen_mem w h :
  joblist (happen w h) = joblist w /\ blocked (happen w h) = blocked w.
Proof. destruct h; cbn; [destruct (bool_decide _)|]; split; reflexivity. Qed.

Lemma steady_advance : steady Inv advance.
Proof.
  intros w I. unfold advance.
  destruct (sched w) as [|hs rest]; cbn; (split; [|no_throw]); [exact I|].
  assert (I1 : Inv (set_sched rest w)) by (revert I; apply Inv_mem; reflexivity).
  revert I1. generalize (set_sched rest w). clear w I.
  induction hs as [|h hs IH]; intros w I; cbn; [exact I|].
  apply IH. destruct (happen_mem w h) as (J & B). exact (Inv_mem w _ J B I).
Qed.

Lemma steady_tick : steady Inv tick.
Proof.
  unfold tick. apply steady_bind; [apply steady_advance|]. intros _.
  apply steady_bind; [apply steady_deliver | intros; apply steady_ret].
Qed.


(** Changing the signal mask. *)
Section AnyMask.

Hypothesis Inv_blocked : forall b w, Inv w -> Inv (set_blocked b w).

Lemma steady_set_blocked b : steady Inv (modify (set_blocked b)).
Proof. intros w I. split; [exact (Inv_blocked b w I) | no_throw]. Qed.

Lemma steady_sigprocmask h set : steady Inv (sigprocmask h set).
Proof.
  unfold sigprocmask. apply steady_bind; [apply steady_get|]. intros.
  apply steady_bind; [apply steady_set_blocked|]. intros.
  apply steady_bind; [apply steady_say|]. intros.
  apply steady_bind; [apply steady_tick | intros; apply steady_ret].
Qed.




End AnyMask.

End HandlerInvariant.

(** ** The exceptions of the builtins *)














(** [bg 2] while a child that no job records, pid 300, has just exited:
    the SIGCHLD handler runs as [kill] returns and its lookup of the
    owning job fails, so the builtin ends in an exception after it has
    signalled pid 200; the prompt reports it and the shell goes on. *)
Example bgBuiltin_throws_after_acting :
  let w := set_children [100; 101; 200; 300]
             (two_jobs [[ChildChange 300 (WaitStatus.exited 0)]]) in
  fst (bgBuiltin (line "bg" ["2"]) 3 w) = Stop (Throw (lookup_what (JobByProcess 300))) /\
  log (snd (bgBuiltin (line "bg" ["2"]) 3 w))
  = [EKill 200 SIGCONT 0; EHandlerEnter SIGCHLD; EWaitpid 300 0] /\
  repl_round 5 stshpid (line "bg" ["2"]) w
  = (Ret tt, emit (EStderr (lookup_what (JobByProcess 300)))
               (snd (bgBuiltin (line "bg" ["2"]) 3 w))).
Proof. split; [|split]; vm_compute; reflexivity. Qed.

(** ** Back at the prompt *)

Lemma find_None_iff {A} (f : A -> bool) l :
  find f l = None <-> forall x, In x l -> f x = false.
Proof.
  split; [apply find_none|].
  induction l as [|a l IH]; intros H; cbn; [reflexivity|].
  rewrite (H a (or_introl eq_refl)). apply IH. intros x Hx. apply H. right. exact Hx.
Qed.

Lemma hasForegroundJob_false (t : gmap Z STSHJob) :
  JobList.hasForegroundJob t = false <-> no_foreground t.
Proof.
  unfold JobList.hasForegroundJob, JobList.getForegroundJob, no_foreground.
  rewrite bool_decide_eq_false, <- eq_None_not_Some, find_None_iff.
  split.
  - intros H n j E.
    assert (I : In (n, j) (map_to_list t))
      by (apply list_elem_of_In, elem_of_map_to_list; exact E).
    specialize (H _ I). cbn in H. apply bool_decide_eq_false in H.
    destruct (job_state j); [contradiction | reflexivity].
  - intros H [n j] I. apply list_elem_of_In, elem_of_map_to_list in I.
    cbn. apply bool_decide_eq_false. rewrite (H n j I). discriminate.
Qed.

Lemma calm_mem w w' :
  joblist w' = joblist w -> blocked w' = blocked w -> calm w -> calm w'.
Proof. unfold calm. intros -> _. trivial. Qed.

Lemma calm_setProcessState w n j pid s :
  joblist w !! n = Some j -> calm w ->
  calm (set_joblist (fun t => <[n := JobList.job_setProcessState j pid s]> t) w).
Proof.
  unfold calm, no_foreground. cbn. intros E H m j' L.
  destruct (decide (n = m)) as [->|Ne].
  - rewrite lookup_insert_eq in L. injection L as <-. exact (H m j E).
  - rewrite lookup_insert_ne in L by exact Ne. exact (H m j' L).
Qed.

Lemma calm_synchronize w n :
  calm w -> calm (set_joblist (fun _ => fst (JobList.synchronize n (joblist w))) w).
Proof.
  unfold calm, no_foreground, JobList.synchronize. cbn. intros H m j' L.
  destruct (joblist w !! n) as [j|] eqn:E; [|exact (H m j' L)].
  destruct (JobList.all_terminated j).
  - cbn in L. apply lookup_delete_Some in L as [_ L]. exact (H m j' L).
  - destruct (_ && _); cbn in L; [|exact (H m j' L)].
    destruct (decide (n = m)) as [->|Ne].
    + rewrite lookup_insert_eq in L. injection L as <-. reflexivity.
    + rewrite lookup_insert_ne in L by exact Ne. exact (H m j' L).
Qed.

Lemma calm_blocked b w : calm w -> calm (set_blocked b w).
Proof. trivial. Qed.

Lemma wait_foreground_exit fuel existing : forall w w',
  wait_foreground fuel existing w = (Ret tt, w') ->
  JobList.hasForegroundJob (joblist w') = false.
Proof.
  induction fuel as [|fuel IH]; intros w w' H; cbn [wait_foreground] in H; [discriminate|].
  apply bind_Ret_inv in H as (fg & w1 & E & H).
  unfold hasForegroundJob, get in E. injection E as <- <-.
  destruct (JobList.hasForegroundJob (joblist w)) eqn:F.
  - apply bind_Ret_inv in H as ([] & w2 & _ & H). exact (IH w2 w' H).
  - injection H as <-. exact F.
Qed.

Lemma unblock_keeps_calm set w r w' :
  calm w -> sigprocmask SIG_UNBLOCK set w = (r, w') -> calm w'.
Proof.
  intros C E.
  pose proof (steady_sigprocmask calm calm_mem calm_setProcessState calm_synchronize
                calm_blocked SIG_UNBLOCK set w C) as [C' _].
  rewrite E in C'. exact C'.
Qed.

(** X5: whenever [createJob] or [fgBuiltin] returns to the
    read-eval-print loop the job table has no foreground job, whatever
    the children and the terminal did in between and whatever the table
    held before. *)
Theorem no_foreground_job_at_the_prompt (fuel : nat) (p : pipeline) (index : Z)
    (w w' : World) :
  createJob fuel p w = (Ret tt, w') \/ fgBuiltin fuel p index w = (Ret tt, w') ->
  JobList.hasForegroundJob (joblist w') = false.
Proof.
  intros [H|H]; apply hasForegroundJob_false.
  - unfold createJob in H.
    apply bind_Ret_inv in H as (je & w1 & _ & H).
    apply bind_Ret_inv in H as ([] & w2 & W & H).
    apply bind_Ret_inv in H as (r & w3 & U & H).
    injection H as <-.
    apply wait_foreground_exit, hasForegroundJob_false in W.
    exact (unblock_keeps_calm _ _ _ _ W U).
  - unfold fgBuiltin in H.
    destruct (token p 0) as [first|]; [|discriminate].
    destruct (bad_number first); [discriminate|]. cbv zeta in H.
    apply bind_Ret_inv in H as (known & w0 & _ & H).
    destruct (negb known); [discriminate|].
    do 4 (apply bind_Ret_inv in H as (? & ? & _ & H)).
    apply bind_Ret_inv in H as ([] & w2 & W & H).
    apply bind_Ret_inv in H as (r & w3 & U & H).
    injection H as <-.
    apply wait_foreground_exit, hasForegroundJob_false in W.
    exact (unblock_keeps_calm _ _ _ _ W U).
Qed.

Lemma no_foreground_job_at_the_prompt_witness :
  (createJob 5 (line "sleep" ["30"])
     (prompt [2001] [[]; []; []; []; []; [ChildChange 2001 (WaitStatus.exited 0)]])
   = (Ret tt, snd (createJob 5 (line "sleep" ["30"])
        (prompt [2001] [[]; []; []; []; []; [ChildChange 2001 (WaitStatus.exited 0)]])))
   \/ fgBuiltin 5 (line "sleep" ["30"]) 0
        (prompt [2001] [[]; []; []; []; []; [ChildChange 2001 (WaitStatus.exited 0)]])
      = (Ret tt, snd (createJob 5 (line "sleep" ["30"])
        (prompt [2001] [[]; []; []; []; []; [ChildChange 2001 (WaitStatus.exited 0)]])))) /\
  JobList.hasForegroundJob
    (joblist (snd (createJob 5 (line "sleep" ["30"])
        (prompt [2001] [[]; []; []; []; []; [ChildChange 2001 (WaitStatus.exited 0)]]))))
  = false.
Proof.
  split; [left; vm_compute; reflexivity|].
  apply (no_foreground_job_at_the_prompt 5 (line "sleep" ["30"]) 0
           (prompt [2001] [[]; []; []; []; []; [ChildChange 2001 (WaitStatus.exited 0)]])).
  left; vm_compute; reflexivity.
Defined.

(** The signal mask *)

Lemma tick_blocked w : blocked (snd (tick w)) = blocked w.
Proof.
  refine (proj1 (steady_tick (fun w0 => blocked w0 = blocked w) _ _ _ w eq_refl)).
  - intros ? ? _ B E. congruence.
  - intros. assumption.
  - intros. assumption.
Qed.

Lemma sigprocmask_blocked h set w :
  blocked (snd (sigprocmask h set w))
  = match h with
    | SIG_BLOCK => list_union (blocked w) set
    | SIG_UNBLOCK => list_difference (blocked w) set
    end.
Proof.
  unfold sigprocmask, bind, get, modify, say. cbn.
  match goal with |- context [tick ?w0] =>
    pose proof (tick_blocked w0) as T; destruct (tick w0) as [[[]|?] ?] end;
    cbn in T |- *; exact T.
Qed.

(** X6: whenever [createJob] or [fgBuiltin] returns, none of SIGCHLD,
    SIGINT, SIGTSTP and SIGCONT is blocked, also when the caller had
    some of them blocked: the final [sigprocmask(SIG_UNBLOCK, ...)]
    does not restore the mask saved in [existing]. *)
Theorem job_control_signals_unblocked_on_return (fuel : nat) (p : pipeline) (index : Z)
    (w w' : World) (sig : signal) :
  createJob fuel p w = (Ret tt, w') \/ fgBuiltin fuel p index w = (Ret tt, w') ->
  In sig [SIGCHLD; SIGINT; SIGTSTP; SIGCONT] ->
  ~ In sig (blocked w').
Proof.
  intros H Hs.
  assert (exists set w2 r, (forall s, In s [SIGCHLD; SIGINT; SIGTSTP; SIGCONT] -> In s set) /\
                           sigprocmask SIG_UNBLOCK set w2 = (Ret r, w')) as (set & w2 & r & Hset & U).
  { destruct H as [H|H].
    - unfold createJob in H.
      apply bind_Ret_inv in H as (je & w1 & _ & H).
      apply bind_Ret_inv in H as ([] & w2 & W & H).
      apply bind_Ret_inv in H as (r & w3 & U & H).
      injection H as <-. exists [SIGCHLD; SIGINT; SIGTSTP; SIGCONT], w2, r. auto.
    - unfold fgBuiltin in H.
      destruct (token p 0) as [first|]; [|discriminate].
      destruct (bad_number first); [discriminate|]. cbv zeta in H.
      apply bind_Ret_inv in H as (known & w0 & _ & H).
      destruct (negb known); [discriminate|].
      do 5 (apply bind_Ret_inv in H as (? & ? & _ & H)).
      apply bind_Ret_inv in H as (r & w3 & U & H).
      injection H as <-. eexists job_control_signals, _, r. split; [|exact U].
      intros s. cbn. tauto. }
  pose proof (sigprocmask_blocked SIG_UNBLOCK set w2) as B.
  rewrite U in B. cbn [snd] in B. rewrite B.
  intros I. apply list_elem_of_In, list_elem_of_difference in I as [_ N].
  apply N, list_elem_of_In, Hset, Hs.
Qed.

Lemma job_control_signals_unblocked_on_return_witness :
  ((createJob 5 (line "fg" ["2"])
      (two_jobs [[]; []; [ChildChange 200 (WaitStatus.exited 0)]])
    = (Ret tt, snd (fgBuiltin 5 (line "fg" ["2"]) 2
                      (two_jobs [[]; []; [ChildChange 200 (WaitStatus.exited 0)]])))
    \/ fgBuiltin 5 (line "fg" ["2"]) 2
         (two_jobs [[]; []; [ChildChange 200 (WaitStatus.exited 0)]])
       = (Ret tt, snd (fgBuiltin 5 (line "fg" ["2"]) 2
                         (two_jobs [[]; []; [ChildChange 200 (WaitStatus.exited 0)]])))) /\
   In SIGCHLD [SIGCHLD; SIGINT; SIGTSTP; SIGCONT]) /\
  ~ In SIGCHLD
       (blocked (snd (fgBuiltin 5 (line "fg" ["2"]) 2
                        (two_jobs [[]; []; [ChildChange 200 (WaitStatus.exited 0)]])))).
Proof.
  split.
  - split; [right; vm_compute; reflexivity | left; reflexivity].
  - apply (job_control_signals_unblocked_on_return 5 (line "fg" ["2"]) 2
             (two_jobs [[]; []; [ChildChange 200 (WaitStatus.exited 0)]])
             (snd (fgBuiltin 5 (line "fg" ["2"]) 2
                     (two_jobs [[]; []; [ChildChange 200 (WaitStatus.exited 0)]])))
             SIGCHLD);
      [right; vm_compute; reflexivity | left; reflexivity].
Defined.

(** ** Who is signalled *)

Lemma emits_children evs : forall w, children (emits evs w) = children w.
Proof.
  induction evs as [|e evs IH]; intros w; [reflexivity|].
  change (emits (e :: evs) w) with (emits evs (emit e w)). rewrite IH. reflexivity.
Qed.

Lemma emits_cons e evs w : emits (e :: evs) w = emits evs (emit e w).
Proof. reflexivity. Qed.

Lemma raw_kill_each sig (k : Z -> M unit) ps : forall w,
  (forall r w0, k r w0 = (Ret tt, w0)) ->
  for_each ps (fun process => bind (raw_kill (proc_pid process) sig) k) w
  = (Ret tt, emits (kills sig w ps) w).
Proof.
  induction ps as [|p ps IH]; intros w Hk; [reflexivity|].
  cbn [for_each kills List.map]. rewrite emits_cons.
  unfold bind at 1. unfold bind at 1. unfold raw_kill at 1.
  unfold bind, get, say, modify, ret. cbn beta iota. rewrite Hk.
  fold (for_each ps (fun process => bind (raw_kill (proc_pid process) sig) k)).
  rewrite (IH _ Hk). reflexivity.
Qed.

Lemma forward_to_foreground_kills sig w :
  forward_to_foreground sig w
  = (Ret tt, emits (kills sig w match JobList.getForegroundJob (joblist w) with
                                | Some (_, job) => job_processes job
                                | None => []
                                end) w).
Proof.
  unfold forward_to_foreground.
  unfold bind at 1. unfold hasForegroundJob, get, JobList.hasForegroundJob.
  destruct (JobList.getForegroundJob (joblist w)) as [[n job]|] eqn:E.
  - rewrite bool_decide_eq_true_2 by eauto. cbn [when].
    unfold bind at 1. unfold getForegroundJob. rewrite E. cbn [snd].
    apply raw_kill_each. reflexivity.
  - rewrite bool_decide_eq_false_2 by (intros [? ?]; discriminate).
    reflexivity.
Qed.

(** X7: the SIGINT and SIGTSTP handlers send their own signal to each
    process of the foreground job, in the order of the job, one [kill]
    per pid (never to the group), and do nothing when there is no
    foreground job; they change neither the job table nor the mask. *)
Theorem handlers_forward_to_the_foreground_job (w : World) :
  let members :=
    match JobList.getForegroundJob (joblist w) with
    | Some (_, job) => job_processes job
    | None => []
    end in
  sigintHandler w = (Ret tt, emits (kills SIGINT w members) w) /\
  sigtstpHandler w = (Ret tt, emits (kills SIGTSTP w members) w).
Proof.
  split; apply forward_to_foreground_kills.
Qed.

Lemma kill_quiet pid sig w :
  quiet w ->
  kill pid sig w
  = (Ret (if bool_decide (pid ∈ children w) then 0 else -1),
     emit (EKill pid sig (if bool_decide (pid ∈ children w) then 0 else -1)) w).
Proof.
  intros Q. unfold kill, bind, raw_kill, bind, get, say, modify, ret. cbn beta iota.
  rewrite tick_quiet; [reflexivity|]. exact (quiet_emits [_] w Q).
Qed.

Lemma kill_each_quiet sig (k : Z -> M unit) ps : forall w,
  (forall r w0, k r w0 = (Ret tt, w0)) ->
  quiet w ->
  for_each ps (fun process => bind (kill (proc_pid process) sig) k) w
  = (Ret tt, emits (kills sig w ps) w).
Proof.
  induction ps as [|p ps IH]; intros w Hk Q; [reflexivity|].
  cbn [for_each kills List.map]. rewrite emits_cons.
  unfold bind at 1. unfold bind at 1. rewrite (kill_quiet _ _ _ Q), Hk.
  match goal with |- for_each _ _ ?w1 = _ =>
    assert (Q1 : quiet w1) by exact (quiet_emits [_] w Q);
    rewrite (IH w1 Hk Q1) end.
  reflexivity.
Qed.

(** X8: with no signal on its way, [bg n] for an existing job [n] sends
    SIGCONT to every process of the job in order, ignoring the results
    of [kill], leaves every recorded state as it is, and ends with
    [synchronize] on the job. *)
Theorem bgBuiltin_continues_every_member (p : pipeline) (index : Z) (first : string)
    (job : STSHJob) (w : World) :
  quiet w ->
  token p 0 = Some first ->
  bad_number first = false ->
  joblist w !! CLib.to_size_t (CLib.atoi first) = Some job ->
  bgBuiltin p index w
  = synchronize (CLib.to_size_t (CLib.atoi first))
      (emits (kills SIGCONT w (job_processes job)) w).
Proof.
  intros Q T B J. unfold bgBuiltin. rewrite T, B. cbv zeta.
  unfold bind at 1. unfold containsJob, get, JobList.containsJob.
  rewrite J, bool_decide_eq_true_2 by eauto. cbn [negb].
  unfold bind at 1. unfold job_getProcesses at 1. unfold bind at 1.
  unfold the_job at 1. rewrite J. unfold ret at 1.
  unfold bind at 1.
  rewrite (kill_each_quiet SIGCONT (fun _ => ret tt) (job_processes job) w
             (fun _ _ => eq_refl) Q).
  reflexivity.
Qed.

Lemma bgBuiltin_continues_every_member_witness :
  (quiet (two_jobs []) /\
   token (line "bg" ["1"]) 0 = Some "1" /\
   bad_number "1" = false /\
   joblist (two_jobs []) !! CLib.to_size_t (CLib.atoi "1") = Some job1) /\
  bgBuiltin (line "bg" ["1"]) 3 (two_jobs [])
  = synchronize (CLib.to_size_t (CLib.atoi "1"))
      (emits (kills SIGCONT (two_jobs []) (job_processes job1)) (two_jobs [])).
Proof.
  split.
  - split; [split; reflexivity|]. split; [reflexivity|].
    split; vm_compute; reflexivity.
  - apply (bgBuiltin_continues_every_member (line "bg" ["1"]) 3 "1" job1 (two_jobs []));
      [split; reflexivity | reflexivity | vm_compute; reflexivity | vm_compute; reflexivity].
Defined.

Lemma find_is_Some {A} (f : A -> bool) l x : In x l -> f x = true -> is_Some (find f l).
Proof.
  intros I F. destruct (find f l) eqn:E; [eauto|].
  rewrite (find_none _ _ E x I) in F. discriminate.
Qed.

Lemma containsProcess_member (t : gmap Z STSHJob) n j process :
  t !! n = Some j -> In process (job_processes j) ->
  JobList.containsProcess (proc_pid process) t = true.
Proof.
  intros L I. unfold JobList.containsProcess, JobList.getJobWithProcess.
  apply bool_decide_eq_true.
  apply (find_is_Some _ _ (n, j)).
  - apply list_elem_of_In, elem_of_map_to_list. exact L.
  - cbn. unfold JobList.job_containsProcess. apply existsb_exists.
    exists process. split; [exact I | apply Z.eqb_refl].
Qed.

Lemma SHC_killer_SIGCONT index sig : SHC_killer index = Some sig -> sig = SIGCONT.
Proof.
  unfold SHC_killer.
  destruct (index =? 4), (index =? 5), (index =? 6); cbn; congruence.
Qed.

(** X9: with no signal on its way, every system call of [slay], [halt]
    and [cont] is a [kill] with SIGCONT whose target is a pid recorded
    in the job table, whatever the arguments. *)
Theorem SHCBuiltin_signals_only_recorded_processes (p : pipeline) (index : Z) (w : World) :
  quiet w ->
  exists evs,
    snd (SHCBuiltin p index w) = emits evs w /\
    forall e, In e evs ->
      exists pid r, e = EKill pid SIGCONT r /\
                    JobList.containsProcess pid (joblist w) = true.
Proof.
  intros Q.
  assert (Nothing : forall o : outcome unit, exists evs,
            snd (o, w) = emits evs w /\
            forall e, In e evs ->
              exists pid r, e = EKill pid SIGCONT r /\
                            JobList.containsProcess pid (joblist w) = true).
  { intros o. exists []. split; [reflexivity | intros e []]. }
  unfold SHCBuiltin. cbv zeta.
  destruct (token p 0) as [first|]; [|apply Nothing].
  destruct (token p 1) as [second|].
  - unfold bind at 1. unfold containsJob at 1, get.
    destruct (JobList.containsJob _ _); cbn [negb]; [|apply Nothing].
    unfold bind at 1. unfold getJob.
    destruct (joblist w !! _) as [job|] eqn:L; [|apply Nothing].
    destruct (JobList.job_containsProcess job _); cbn [negb];
      [|apply Nothing].
    destruct (JobList.job_getProcess job _) as [process|] eqn:G;
      [|apply Nothing].
    destruct (SHC_killer index) as [sig|] eqn:K; cbn [kill_with];
      [|apply Nothing].
    apply SHC_killer_SIGCONT in K as ->.
    unfold bind. rewrite (kill_quiet _ _ _ Q). cbn [snd ret].
    exists [EKill (proc_pid process) SIGCONT
              (if bool_decide (proc_pid process ∈ children w) then 0 else -1)].
    split; [reflexivity|]. intros e [<-|[]]. eexists _, _. split; [reflexivity|].
    apply (containsProcess_member _ _ _ _ L).
    unfold JobList.job_getProcess in G. apply find_some in G as [I _]. exact I.
  - destruct (bad_number first); [apply Nothing|].
    unfold bind at 1. unfold containsProcess at 1, get.
    destruct (JobList.containsProcess _ _); cbn [negb]; [|apply Nothing].
    unfold bind at 1. unfold getJobWithProcess.
    destruct (JobList.getJobWithProcess _ _) as [[n job]|] eqn:G;
      [|apply Nothing].
    apply getJobWithProcess_lookup in G. cbn [snd].
    destruct (SHC_killer index) as [sig|] eqn:K.
    + apply SHC_killer_SIGCONT in K as ->. cbn [kill_with].
      rewrite (kill_each_quiet SIGCONT (fun _ => ret tt) (job_processes job) w
                 (fun _ _ => eq_refl) Q).
      eexists. split; [reflexivity|]. intros e I.
      unfold kills in I. apply in_map_iff in I as (process & <- & I).
      eexists _, _. split; [reflexivity|].
      exact (containsProcess_member _ _ _ _ G I).
    + destruct (job_processes job); apply Nothing.
Qed.

Lemma SHCBuiltin_signals_only_recorded_processes_witness :
  quiet (two_jobs []) /\
  exists evs,
    snd (SHCBuiltin (line "slay" ["101"]) 4 (two_jobs [])) = emits evs (two_jobs []) /\
    forall e, In e evs ->
      exists pid r, e = EKill pid SIGCONT r /\
                    JobList.containsProcess pid (joblist (two_jobs [])) = true.
Proof.
  split; [split; reflexivity|].
  apply (SHCBuiltin_signals_only_recorded_processes (line "slay" ["101"]) 4 (two_jobs [])).
  split; reflexivity.
Defined.

(** ** The builtins and the terminal *)

Section BuiltinsTerminal.

Variable Inv : World -> Prop.
Hypothesis Inv_frame : forall w w',
  kernel w' = kernel w -> tty_pgrp w' = tty_pgrp w -> log w' = log w ->
  Inv w -> Inv w'.
Hypothesis Inv_emit : forall e w,
  (forall g r, e <> ETcsetpgrp g r) -> Inv w -> Inv (emit e w).
Hypothesis Inv_home : forall w,
  Inv w -> Inv (snd (raw_tcsetpgrp (shell_pgid (kernel w)) w)).

Lemma keeps_bgBuiltin p index : keeps Inv (bgBuiltin p index).
Proof.
  unfold bgBuiltin. destruct (token p 0) as [first|]; [|apply keeps_halt].
  destruct (bad_number first); [apply keeps_halt|]. cbv zeta.
  apply keeps_bind; [apply keeps_get|]. intros known.
  destruct known; cbn [negb]; [|apply keeps_halt].
  apply keeps_bind.
  { unfold job_getProcesses. apply keeps_bind; [apply keeps_the_job | intros; apply keeps_ret]. }
  intros processes. apply keeps_bind; [|intros; apply keeps_synchronize; assumption].
  apply keeps_for_each. intros process.
  apply keeps_bind; [apply keeps_kill; assumption | intros; apply keeps_ret].
Qed.

Lemma keeps_kill_with pid killer : keeps Inv (kill_with pid killer).
Proof.
  destruct killer; cbn [kill_with]; [|apply keeps_halt].
  apply keeps_bind; [apply keeps_kill; assumption | intros; apply keeps_ret].
Qed.

Lemma keeps_SHCBuiltin p index : keeps Inv (SHCBuiltin p index).
Proof.
  unfold SHCBuiltin. cbv zeta.
  destruct (token p 0) as [first|]; [|apply keeps_halt].
  destruct (token p 1) as [second|].
  - apply keeps_bind; [apply keeps_get|]. intros known.
    destruct known; cbn [negb]; [|apply keeps_halt].
    apply keeps_bind; [apply keeps_getJob|]. intros job.
    destruct (JobList.job_containsProcess job _); cbn [negb]; [|apply keeps_halt].
    destruct (JobList.job_getProcess job _); [apply keeps_kill_with | apply keeps_halt].
  - destruct (bad_number first); [apply keeps_halt|].
    apply keeps_bind; [apply keeps_get|]. intros known.
    destruct known; cbn [negb]; [|apply keeps_halt].
    apply keeps_bind; [apply keeps_getJobWithProcess|]. intros nj.
    apply keeps_for_each. intros process. apply keeps_kill_with.
Qed.

Lemma keeps_handleBuiltin fuel p : keeps Inv (handleBuiltin fuel p).
Proof.
  unfold handleBuiltin. destruct (commands p) as [|c cs]; [apply keeps_halt|].
  destruct (find_builtin _ _ _) as [index|]; [|apply keeps_ret].
  apply keeps_bind; [|intros; apply keeps_ret].
  destruct ((index =? 0) || (index =? 1)); [apply keeps_halt|].
  destruct (index =? 2); [apply keeps_fgBuiltin; assumption|].
  destruct (index =? 3); [apply keeps_bgBuiltin|].
  destruct ((index =? 4) || (index =? 5) || (index =? 6)); [apply keeps_SHCBuiltin|].
  destruct (index =? 7); [|apply keeps_halt].
  apply keeps_say; [assumption | intros ? ?; discriminate].
Qed.

End BuiltinsTerminal.

(** X10: no builtin calls [tcsetpgrp] for a group other than the
    shell's: if the shell held the terminal and had only ever asked for
    it for its own group, this is still so after [handleBuiltin],
    however it ends. *)
Theorem no_builtin_gives_the_terminal_away (fuel : nat) (p : pipeline) (w : World) :
  shell_holds_terminal w ->
  shell_holds_terminal (snd (handleBuiltin fuel p w)).
Proof.
  exact (keeps_handleBuiltin _ holds_frame holds_emit holds_home fuel p w).
Qed.

Lemma no_builtin_gives_the_terminal_away_witness :
  shell_holds_terminal (two_jobs []) /\
  shell_holds_terminal (snd (handleBuiltin 5 (line "bg" ["1"]) (two_jobs []))).
Proof.
  assert (H : shell_holds_terminal (two_jobs [])).
  { split; [reflexivity | intros g r []]. }
  split; [exact H|].
  apply (no_builtin_gives_the_terminal_away 5 (line "bg" ["1"]) (two_jobs [])).
  exact H.
Defined.

(** ** The parent's pipe descriptors *)













(** ** The handler run again, the children's descriptors, the first version *)

(** X12: the SIGCHLD handler run a second time, with nothing new to
    collect, makes a single [waitpid] call (returning 0 while children
    remain, -1 when none does) and leaves the job table as it is. *)
Theorem sigchldHandler_again (w w' : World) :
  Forall (fun ev => 0 < fst ev) (waitq w) ->
  sigchldHandler w = (Ret tt, w') ->
  sigchldHandler w'
  = (Ret tt, emit (EWaitpid (match children w' with [] => -1 | _ :: _ => 0 end) 0) w').
Proof.
  intros Hpos H. unfold sigchldHandler in H.
  rewrite (sigchld_loop_spec (waitq w) w eq_refl Hpos) in H.
  destruct (spec_reaper_ends _ _ _ eq_refl H) as [E _].
  unfold sigchldHandler. rewrite E. cbn [length sigchld_loop].
  unfold bind, raw_waitpid. rewrite E. destruct (children w'); reflexivity.
Qed.

Lemma sigchldHandler_again_witness :
  (Forall (fun ev => 0 < fst ev) (waitq storm) /\
   sigchldHandler storm = (Ret tt, snd (sigchldHandler storm))) /\
  sigchldHandler (snd (sigchldHandler storm))
  = (Ret tt, emit (EWaitpid (match children (snd (sigchldHandler storm)) with
                             | [] => -1
                             | _ :: _ => 0
                             end) 0)
                  (snd (sigchldHandler storm))).
Proof.
  split.
  - split; [repeat constructor | vm_compute; reflexivity].
  - apply (sigchldHandler_again storm); [repeat constructor | vm_compute; reflexivity].
Defined.

Ltac wiring_step :=
  lazymatch goal with
  | |- does (Dup2 _ _) _ => apply does_Dup2
  | |- does (Close _) _ => apply does_Close
  | |- does (close _) _ => apply does_close
  | |- does (when _ _) _ => apply does_when
  | |- does (for_each _ _) _ => apply does_for_each; intros
  | |- does (bind _ _) _ => apply does_seq
  end.

Lemma no_dup2_in_closes a b l :
  ~ In (EDup2 a b) (flat_map (fun j => [EClose (fds j 0)] ++ [EClose (fds j 1)]) l).
Proof.
  intros H. apply in_flat_map in H as (j & _ & H). cbn in H.
  destruct H as [H|[H|[]]]; discriminate.
Qed.

(** X13: in a pipeline of two or more commands the only [dup2] calls of
    child [i] are: the read end of pipe [i - 1] onto stdin when [i > 0],
    the write end of pipe [i] onto stdout when [i < count - 1], the input
    file onto stdin for the first child and the output file onto stdout
    for the last one when the pipeline names them. *)
Theorem child_plumbing (p : pipeline) (count i : Z) (w : World) :
  quiet w -> 2 <= count -> 0 <= i < count ->
  exists evs,
    wire_pipes p count i w = (Ret tt, emits evs w) /\
    forall a b, In (EDup2 a b) evs <->
      (i = 0 /\ nonempty (input p) = true /\ a = infd /\ b = STDIN_FILENO) \/
      (0 < i /\ a = fds (i - 1) 0 /\ b = STDIN_FILENO) \/
      (i < count - 1 /\ a = fds i 1 /\ b = STDOUT_FILENO) \/
      (i = count - 1 /\ nonempty (output p) = true /\ a = outfd /\ b = STDOUT_FILENO).
Proof.
  intros Q Hc Hi. unfold wire_pipes.
  destruct (Z.eqb_spec i 0) as [E0|N0]; [|destruct (Z.eqb_spec i (count - 1)) as [E1|N1]].
  - eexists. split; [refine ((_ : does _ _) w Q); repeat wiring_step|].
    intros a b. rewrite in_app_iff. split.
    + intros [H|H]; [|destruct (no_dup2_in_closes _ _ _ H)].
      destruct (nonempty (input p)); cbn in H;
        repeat (destruct H as [H|H]; [try discriminate; injection H as <- <-|]);
        try destruct H; subst i; first [left; repeat split; reflexivity
                                       | right; right; left; repeat split; lia].
    + intros [(_ & I & -> & ->)|[(? & _)|[(_ & -> & ->)|(? & _)]]]; try lia;
        left; [rewrite I|destruct (nonempty (input p))]; subst i; cbn; tauto.
  - eexists. split; [refine ((_ : does _ _) w Q); repeat wiring_step|].
    intros a b. rewrite in_app_iff. split.
    + intros [H|H]; [|destruct (no_dup2_in_closes _ _ _ H)].
      destruct (nonempty (output p)); cbn in H;
        repeat (destruct H as [H|H]; [try discriminate; injection H as <- <-|]);
        try destruct H; first [ right; right; right; repeat split; first [reflexivity | lia]
                              | right; left; repeat split; lia].
    + intros [(? & _)|[(_ & -> & ->)|[(? & _)|(_ & O & -> & ->)]]]; try lia;
        left; [destruct (nonempty (output p))|rewrite O]; cbn; tauto.
  - eexists. split; [refine ((_ : does _ _) w Q); repeat wiring_step|].
    intros a b. rewrite in_app_iff. split.
    + intros [H|H]; [|destruct (no_dup2_in_closes _ _ _ H)].
      cbn in H;
        repeat (destruct H as [H|H]; [try discriminate; injection H as <- <-|]);
        try destruct H; first [ right; left; repeat split; lia
                              | right; right; left; repeat split; lia].
    + intros [(? & _)|[(_ & -> & ->)|[(_ & -> & ->)|(? & _)]]]; try lia;
        left; cbn; tauto.
Qed.

Lemma child_plumbing_witness :
  (quiet (child_world launching 2002) /\ 2 <= 3 /\ 0 <= 1 < 3) /\
  exists evs,
    wire_pipes (pipe_line ["cat"; "cat"; "wc"]) 3 1 (child_world launching 2002)
    = (Ret tt, emits evs (child_world launching 2002)) /\
    forall a b, In (EDup2 a b) evs <->
      (1 = 0 /\ nonempty (input (pipe_line ["cat"; "cat"; "wc"])) = true /\
       a = infd /\ b = STDIN_FILENO) \/
      (0 < 1 /\ a = fds (1 - 1) 0 /\ b = STDIN_FILENO) \/
      (1 < 3 - 1 /\ a = fds 1 1 /\ b = STDOUT_FILENO) \/
      (1 = 3 - 1 /\ nonempty (output (pipe_line ["cat"; "cat"; "wc"])) = true /\
       a = outfd /\ b = STDOUT_FILENO).
Proof.
  split.
  - split; [apply quiet_child_world | lia].
  - apply (child_plumbing (pipe_line ["cat"; "cat"; "wc"]) 3 1 (child_world launching 2002));
      [apply quiet_child_world | lia | lia].
Defined.

(** X14: the first version of [handleBuiltin] throws "Internal Error:
    Builtin command not supported." for [fg], [bg], [slay], [halt] and
    [cont] without touching anything, and behaves as the final version
    on every other command. *)
Theorem starter_handleBuiltin_differs_on_job_control (fuel : nat) (p : pipeline)
    (c : command) (cs : list command) (w : World) :
  commands p = c :: cs ->
  (In (cmd_command c) ["fg"; "bg"; "slay"; "halt"; "cont"] ->
   Starter.handleBuiltin p w
   = (Stop (Throw "Internal Error: Builtin command not supported."), w)) /\
  (~ In (cmd_command c) ["fg"; "bg"; "slay"; "halt"; "cont"] ->
   Starter.handleBuiltin p w = handleBuiltin fuel p w).
Proof.
  intros Hc. unfold Starter.handleBuiltin, handleBuiltin. rewrite Hc. split.
  - intros Hn. cbn in Hn. destruct Hn as [<-|[<-|[<-|[<-|[<-|[]]]]]]; reflexivity.
  - intros Hn. unfold kSupportedBuiltins. cbn [find_builtin].
    repeat (case_bool_decide as E;
            [first [reflexivity | exfalso; apply Hn; rewrite <- E; cbn; tauto] | clear E]).
    reflexivity.
Qed.

Lemma starter_handleBuiltin_differs_on_job_control_witness :
  commands (line "fg" ["1"]) = [mkCommand "fg" ["1"]] /\
  ((In (cmd_command (mkCommand "fg" ["1"])) ["fg"; "bg"; "slay"; "halt"; "cont"] ->
    Starter.handleBuiltin (line "fg" ["1"]) (two_jobs [])
    = (Stop (Throw "Internal Error: Builtin command not supported."), two_jobs [])) /\
   (~ In (cmd_command (mkCommand "fg" ["1"])) ["fg"; "bg"; "slay"; "halt"; "cont"] ->
    Starter.handleBuiltin (line "fg" ["1"]) (two_jobs [])
    = handleBuiltin 5 (line "fg" ["1"]) (two_jobs []))).
Proof.
  split; [reflexivity|].
  apply (starter_handleBuiltin_differs_on_job_control 5 (line "fg" ["1"])
           (mkCommand "fg" ["1"]) [] (two_jobs [])).
  reflexivity.
Defined.
